(** * Material UI tooling and component timers: a shallow embedding

    The development covers the two command-line scripts found in
    [packages-internal/bundle-size-checker/create.js] (the size-snapshot
    collector and the package build script) and the timer behaviour that
    [Snackbar.test.tsx] and the Ripple test exercise.

    Scripts are embedded as computations in a small monad that records the
    calls made to the host (file system, worker pool, console, subprocesses)
    and ends either normally or with a thrown JavaScript exception. *)

From stdpp Require Import base list strings gmap.
From Stdlib Require Import Ascii NArith Lia.

Local Open Scope string_scope.
Local Open Scope N_scope.
Local Open Scope list_scope.

(** ** JavaScript runtime notions shared by the scripts *)

Module Js.

(** The two built-in constructors the scripts use with [throw new ...]. *)
Inductive error_class := Error | TypeError.

Record exception := { class : error_class; message : string }.

Inductive completion (A : Type) :=
| Normal (a : A)
| Throw (e : exception).
Arguments Normal {A} a.
Arguments Throw {A} e.

(** A script run: the host calls performed, in order, and how it ended.
    [await] is sequencing; a rejected promise is a [Throw]. *)
Definition io (E A : Type) : Type := (list E * completion A)%type.

Definition ret {E A} (a : A) : io E A := ([], Normal a).

Definition bind {E A B} (m : io E A) (k : A -> io E B) : io E B :=
  match m with
  | (t1, Normal a) => let '(t2, r) := k a in (t1 ++ t2, r)
  | (t1, Throw e) => (t1, Throw e)
  end.

Definition perform {E} (e : E) : io E unit := ([e], Normal tt).

Definition throw {E A} (c : error_class) (msg : string) : io E A :=
  ([], Throw {| class := c; message := msg |}).

Definition effects {E A} (m : io E A) : list E := fst m.
Definition outcome {E A} (m : io E A) : completion A := snd m.

(** [Promise.all(xs.map(f))] for callbacks [f]: every [f x] is started,
    in array order, whether or not an earlier one has thrown; the results
    are collected in array order, and the first rejection in array order
    is the rejection of the whole. *)
Fixpoint Promise_all {E A} (ms : list (io E A)) : io E (list A) :=
  match ms with
  | [] => ret []
  | m :: ms' =>
      let rest := Promise_all ms' in
      (effects m ++ effects rest,
       match outcome m, outcome rest with
       | Normal a, Normal l => Normal (a :: l)
       | Throw e, _ => Throw e
       | Normal _, Throw e => Throw e
       end)
  end.

(** [Array.prototype.join]. *)
Definition join (sep : string) (xs : list string) : string :=
  String.concat sep xs.

(** A JS [Set] keeps its members in insertion order and ignores the
    insertion of a value it already holds. *)
Section JsSet.
Context {A : Type} `{EqDecision A}.

Definition Set_add (s : list A) (x : A) : list A :=
  if decide (x ∈ s) then s else s ++ [x].

Definition new_Set (xs : list A) : list A := foldl Set_add [] xs.
End JsSet.

(** [Object.fromEntries]: a later pair overrides an earlier one with the
    same key. *)
Definition Object_fromEntries {V} (kvs : list (string * V)) : gmap string V :=
  foldl (fun m kv => <[kv.1 := kv.2]> m) ∅ kvs.

(** An object literal used as a lookup table, [{ k1: v1, ... }[key]]. *)
Fixpoint object_get {V} (obj : list (string * V)) (key : string) : option V :=
  match obj with
  | [] => None
  | (k, v) :: rest => if decide (k = key) then Some v else object_get rest key
  end.

Definition dquote : string := String (Ascii.ascii_of_nat 34) EmptyString.

End Js.

Declare Scope js_scope.
Delimit Scope js_scope with js.
Notation "'let*' x ':=' m 'in' k" := (Js.bind m (fun x => k))
  (at level 10, x name, m at level 100, k at level 200) : js_scope.
Local Open Scope js_scope.

(** Node's [path] module is host code; the scripts only call it. *)
Module Node.
Record path_module := {
  resolve : list string -> string;
  join : list string -> string;
  dirname : string -> string;
  basename : string -> string -> string;
  extname : string -> string
}.
End Node.

(** ** The size-snapshot script (first script of create.js) *)

Module BundleSizeChecker.

Record webpack_environment := { analyze : bool; accurateBundles : bool }.

Record argv := {
  argv_analyze : bool;
  argv_accurateBundles : bool;
  argv_output : option string
}.

Section WithHost.
(** An element of [config.entrypoints]; its equality is the one [Set]
    uses. *)
Context {entry : Type} `{EqDecision entry}.
(** What a worker reports for one bundle (worker.js is host code). *)
Context {size_info : Type}.

(** The value of [config.entrypoints], as far as the guard of
    [getWebpackSizes] tells values apart. *)
Inductive js_entrypoints :=
| ep_falsy
| ep_truthy_non_array
| ep_array (l : list entry).

Record config_object := { entrypoints : js_entrypoints }.

(** The argument object of [worker.run]. *)
Record task := {
  task_entry : entry;
  task_webpackEnvironment : webpack_environment;
  task_index : nat;
  task_total : nat
}.

Inductive effect :=
| NewPiscina (filename : string) (maxThreads : N)
| FseEmptyDir (dir : string)
| LoadConfig (dir : string)
| WorkerRun (t : task)
| FseMkdirp (dir : string)
| FseWriteJSON (file : string) (data : gmap string size_info) (spaces : N)
| ConsoleLog (msg : string).

(** The host: CPU count ([os.cpus().length]), working directory
    ([process.cwd()]), [path], the URL of worker.js, what [loadConfig]
    resolves to ([None] for a falsy value) and what a worker resolves
    to for a task. The calls to the file system, to [loadConfig] and to
    the workers are taken to resolve. *)
Record host := {
  cpus_length : N;
  rootDir : string;
  path : Node.path_module;
  worker_url : string;
  loaded_config : option config_object;
  worker_result : task -> list (string * size_info)
}.

Variable h : host.

Definition MAX_CONCURRENCY : N := N.min 8 (cpus_length h).

Definition no_valid_configuration : string :=
  "No valid configuration found. Create a bundle-size-checker.config.js or bundle-size-checker.config.mjs file with entrypoints array.".

Definition loadConfig (dir : string) : Js.io effect (option config_object) :=
  let* _ := Js.perform (LoadConfig dir) in Js.ret (loaded_config h).

Definition worker_run (t : task) : Js.io effect (list (string * size_info)) :=
  let* _ := Js.perform (WorkerRun t) in Js.ret (worker_result h t).

(** The four disjuncts of the guard. *)
Definition not_config (c : option config_object) : bool :=
  match c with None => true | Some _ => false end.

Definition not_entrypoints (c : option config_object) : bool :=
  match c with
  | Some {| entrypoints := ep_falsy |} => true
  | _ => false
  end.

Definition not_isArray (c : option config_object) : bool :=
  match c with
  | Some {| entrypoints := ep_array _ |} => false
  | _ => true
  end.

Definition length_is_0 (c : option config_object) : bool :=
  match c with
  | Some {| entrypoints := ep_array [] |} => true
  | _ => false
  end.

Definition config_entrypoints (c : option config_object) : list entry :=
  match c with
  | Some {| entrypoints := ep_array l |} => l
  | _ => []
  end.

Definition getWebpackSizes (webpackEnvironment : webpack_environment)
  : Js.io effect (list (string * size_info)) :=
  let* _ := Js.perform (NewPiscina (worker_url h) MAX_CONCURRENCY) in
  let buildDir := Node.join (path h) [rootDir h; "build"] in
  let* _ := Js.perform (FseEmptyDir buildDir) in
  let* config := loadConfig (rootDir h) in
  if not_config config || not_entrypoints config
     || not_isArray config || length_is_0 config
  then Js.throw Js.Error no_valid_configuration
  else
    let entries := config_entrypoints config in
    let uniqueEntries := Js.new_Set entries in
    let* sizeArrays := Js.Promise_all
        (imap (fun index entry =>
                 worker_run {| task_entry := entry;
                               task_webpackEnvironment := webpackEnvironment;
                               task_index := index;
                               task_total := length uniqueEntries |})
              uniqueEntries) in
    Js.ret (concat sizeArrays).

Definition snapshotDestPath (a : argv) : string :=
  match argv_output a with
  | Some output =>
      if decide (output = EmptyString)
      then Node.join (path h) [rootDir h; "size-snapshot.json"]
      else Node.resolve (path h) [output]
  | None => Node.join (path h) [rootDir h; "size-snapshot.json"]
  end.

Definition run (a : argv) : Js.io effect unit :=
  let dest := snapshotDestPath a in
  let* sizes := getWebpackSizes {| analyze := argv_analyze a;
                                 accurateBundles := argv_accurateBundles a |} in
  let bundleSizes := Js.Object_fromEntries sizes in
  let* _ := Js.perform (FseMkdirp (Node.dirname (path h) dest)) in
  let* _ := Js.perform (FseWriteJSON dest bundleSizes 2) in
  Js.perform (ConsoleLog ("Bundle size snapshot written to " +:+ dest)).

(** Classification of host calls, used to state what a run did. *)
Definition is_pool_creation (e : effect) : bool :=
  match e with NewPiscina _ _ => true | _ => false end.

Definition is_worker_dispatch (e : effect) : bool :=
  match e with WorkerRun _ => true | _ => false end.

Definition is_file_write (e : effect) : bool :=
  match e with
  | FseEmptyDir _ | FseMkdirp _ | FseWriteJSON _ _ _ => true
  | _ => false
  end.

Definition submitted (t : list effect) : list task :=
  omap (fun e => match e with WorkerRun k => Some k | _ => None end) t.

End WithHost.

Arguments js_entrypoints : clear implicits.
Arguments config_object : clear implicits.
Arguments task : clear implicits.
Arguments effect : clear implicits.
Arguments host : clear implicits.

End BundleSizeChecker.

(** ** The package build script (second script of create.js) *)

Module BuildScript.

Definition validBundles : list string := ["modern"; "node"; "stable"].

(** [Array.prototype.includes] on an array of strings. *)
Definition includes (xs : list string) (x : string) : bool :=
  bool_decide (x ∈ xs).

Record argv := {
  bundle : string;
  largeFiles : bool;
  outDir : string;
  verbose : option bool;
  rollup : bool;
  target : option (list string)
}.

(** The parsed package.json, as far as [run] looks into it. *)
Record package_json := {
  name : string;
  dependencies : option (gmap string string)
}.

(** A rollup warning, as far as [onwarn] looks into it. *)
Record warning := { code : option string }.

Inductive env_value :=
| EnvString (s : string)
| EnvBoolean (b : bool)
| EnvUndefined.

(** An object built with spreads is kept as its list of properties in
    source order; a later property overrides an earlier one. *)
Definition env_object := list (string * env_value).

Inductive effect :=
| ReadFile (file : string) (encoding : string)
| GetVersionEnvVariables
| GlobSync (pattern : string) (cwd : string) (ignore : list string)
| Glob (pattern : string) (cwd : string) (ignore : list string)
| Rollup (input : gmap string string) (external : string -> bool)
         (onwarn : warning -> bool) (alias_find : string)
         (alias_replacement : string) (configFile : string)
         (extensions : list string)
| RollupWrite (dir : string) (format : string) (entryFileNames : string)
| ConsoleLog (msg : string)
| Exec (command : string) (env : env_object).

Definition unrecognized_bundle (b : string) : string :=
  "Unrecognized bundle '" +:+ b +:+ "'. Did you mean one of " +:+ Js.dquote
    +:+ Js.join (Js.dquote +:+ ", " +:+ Js.dquote) validBundles
    +:+ Js.dquote +:+ "?".

Definition needs_babel_runtime : string :=
  "package.json needs to have a dependency on `@babel/runtime` when building with `@babel/plugin-transform-runtime`.".

(** Message of the engine's TypeError for a property read on
    [undefined] (V8 wording). *)
Definition cannot_read_undefined (prop : string) : string :=
  "Cannot read properties of undefined (reading '" +:+ prop +:+ "')".

(** Message of Node's ERR_INVALID_ARG_TYPE for a [path] argument. *)
Definition invalid_path_argument : string :=
  "The " +:+ Js.dquote +:+ "paths[1]" +:+ Js.dquote
    +:+ " argument must be of type string. Received undefined".

Definition newline : string := String (Ascii.ascii_of_nat 10) EmptyString.

(** Message of the Error the promise of [exec] rejects with when the
    subprocess exits with a non-zero code (Node's wording). *)
Definition command_failed (command stderr : string) : string :=
  "Command failed: " +:+ command +:+ newline +:+ stderr.

(** The [external] option, [(id) => /node_modules/.test(id)]. *)
Definition external (id : string) : bool :=
  match String.index 0 "node_modules" id with
  | Some _ => true
  | None => false
  end.

(** The [onwarn] option: whether a warning is handed on to rollup's
    default handler ([warn(warning)]), which reports it on the console. *)
Definition onwarn (w : warning) : bool :=
  negb (bool_decide (code w = Some "MODULE_LEVEL_DIRECTIVE")).

Definition is_truthy_string (s : option string) : bool :=
  match s with
  | Some s => negb (bool_decide (s = EmptyString))
  | None => false
  end.

(** The host: [path], the parsed content of ./package.json, the results
    of the helpers of utils.mjs, of the two globs and of the babel
    subprocess (its exit code and what it wrote), [process.env],
    [JSON.stringify] on the environment and the file-URL round trip that
    makes an entry path absolute. Reading package.json, the globs, rollup
    and its writes are taken to succeed, and the subprocess to end by
    exiting. *)
Record host := {
  path : Node.path_module;
  packageJson : package_json;
  versionEnvVariables : env_object;
  workspaceRoot : string;
  glob_sync_result : list string;
  glob_result : list string;
  exec_exit_code : N;
  exec_stderr : string;
  exec_stdout : string;
  process_env : env_object;
  JSON_stringify : env_object -> string;
  fileURLToPath : string -> string -> string
}.

Section WithHost.
Variable h : host.

(** [path.resolve(a, b)] where [b] comes out of a table lookup. *)
Definition path_resolve2 (a : string) (b : option string)
  : Js.io effect string :=
  match b with
  | Some b => Js.ret (Node.resolve (path h) [a; b])
  | None => Js.throw Js.TypeError invalid_path_argument
  end.

(** The promisified [exec]: the subprocess is started; the promise
    rejects when it exits with a non-zero code and resolves to what it
    wrote otherwise. *)
Definition exec (command : string) (env : env_object)
  : Js.io effect (string * string) :=
  let* _ := Js.perform (Exec command env) in
  if negb (exec_exit_code h =? 0)
  then Js.throw Js.Error (command_failed command (exec_stderr h))
  else Js.ret (exec_stderr h, exec_stdout h).

(** [packageJson.dependencies['@babel/runtime']]: reading a property of
    [undefined] throws. *)
Definition read_babel_runtime : Js.io effect (option string) :=
  match dependencies (packageJson h) with
  | Some deps => Js.ret (deps !! "@babel/runtime")
  | None => Js.throw Js.TypeError (cannot_read_undefined "@babel/runtime")
  end.

Definition extensions : list string := [".js"; ".ts"; ".tsx"].

Definition ignore : list string :=
  ["**/*.test.js"; "**/*.test.ts"; "**/*.test.tsx";
   "**/*.spec.ts"; "**/*.spec.tsx"; "**/*.d.ts"].

(** [file.slice(0, file.length - path.extname(file).length)]. *)
Definition strip_extension (file : string) : string :=
  String.substring 0
    (String.length file - String.length (Node.extname (path h) file))%nat file.

Definition write_target (relativeOutDir : string)
    (topLevelPathImportsCanBePackages : bool) (target : option string)
  : Js.io effect unit :=
  let* targetOutDir :=
    path_resolve2 relativeOutDir
      (match target with
       | Some t =>
           Js.object_get
             [("cjs", if topLevelPathImportsCanBePackages then "./node" else "./");
              ("modern", "./modern");
              ("esm", if topLevelPathImportsCanBePackages then "./" else "./esm")]
             t
       | None => None
       end) in
  let outFileExtension := ".js" in
  Js.perform
    (RollupWrite targetOutDir
       (if bool_decide (target = Some "cjs") then "commonjs" else "es")
       ("[name]" +:+ outFileExtension)).

Definition run (a : argv) : Js.io effect unit :=
  let relativeOutDir := outDir a in
  let* _ :=
    (if negb (includes validBundles (bundle a))
     then Js.throw Js.TypeError (unrecognized_bundle (bundle a))
     else Js.ret tt) in
  let packageJsonPath := Node.resolve (path h) ["./package.json"] in
  let* _ := Js.perform (ReadFile packageJsonPath "utf8") in
  let* babelRuntimeVersion := read_babel_runtime in
  let* _ :=
    (if negb (is_truthy_string babelRuntimeVersion)
     then Js.throw Js.Error needs_babel_runtime
     else Js.ret tt) in
  let* _ := Js.perform GetVersionEnvVariables in
  let env : env_object :=
    [("NODE_ENV", EnvString "production");
     ("BABEL_ENV", EnvString (bundle a));
     ("MUI_BUILD_VERBOSE",
       match verbose a with Some b => EnvBoolean b | None => EnvUndefined end);
     ("MUI_BABEL_RUNTIME_VERSION",
       match babelRuntimeVersion with
       | Some v => EnvString v
       | None => EnvUndefined
       end)] ++ versionEnvVariables h in
  let babelConfigPath := Node.resolve (path h) [workspaceRoot h; "babel.config.js"] in
  let srcDir := Node.resolve (path h) ["./src"] in
  let* _ :=
    Js.perform (GlobSync ("*{" +:+ Js.join "," extensions +:+ "}") srcDir ignore) in
  let topLevelNonIndexFiles :=
    filter (fun file =>
              Node.basename (path h) file (Node.extname (path h) file) ≠ "index")
           (glob_sync_result h) in
  let topLevelPathImportsCanBePackages :=
    bool_decide (length topLevelNonIndexFiles = 0%nat) in
  let* outDir :=
    path_resolve2 relativeOutDir
      (Js.object_get
         [("node", if topLevelPathImportsCanBePackages then "./node" else "./");
          ("modern", "./modern");
          ("stable", if topLevelPathImportsCanBePackages then "./" else "./esm")]
         (bundle a)) in
  if rollup a then
    let* _ :=
      Js.perform (Glob ("**/*{" +:+ Js.join "," extensions +:+ "}") srcDir ignore) in
    let entryFiles := glob_result h in
    let entries :=
      (fun file => (strip_extension file, fileURLToPath h file srcDir))
        <$> entryFiles in
    let* _ :=
      Js.perform (Rollup (Js.Object_fromEntries entries) external onwarn
                    (name (packageJson h)) srcDir babelConfigPath
                    extensions) in
    let targets : list (option string) :=
      match target a with
      | Some ts => Some <$> ts
      | None =>
          [Js.object_get
             [("node", "cjs"); ("modern", "modern"); ("stable", "esm")]
             (bundle a)]
      end in
    let* _ :=
      Js.Promise_all
        (write_target relativeOutDir topLevelPathImportsCanBePackages
           <$> targets) in
    Js.ret tt
  else
    let babelArgs :=
      ["--config-file"; babelConfigPath;
       "--extensions"; Js.dquote +:+ Js.join "," extensions +:+ Js.dquote;
       srcDir;
       "--out-dir"; outDir;
       "--ignore";
       Js.dquote +:+ Js.join (Js.dquote +:+ "," +:+ Js.dquote) ignore
         +:+ Js.dquote]
      ++ (if largeFiles a then ["--compact false"] else []) in
    let command := Js.join " " ("pnpm babel" :: babelArgs) in
    let is_verbose := bool_decide (verbose a = Some true) in
    let* _ :=
      (if is_verbose
       then Js.perform
              (ConsoleLog ("running '" +:+ command +:+ "' with "
                             +:+ JSON_stringify h env))
       else Js.ret tt) in
    let* out := exec command (process_env h ++ env) in
    let stderr := out.1 in
    let stdout := out.2 in
    let* _ :=
      (if negb (bool_decide (stderr = EmptyString))
       then Js.throw Js.Error
              ("'" +:+ command +:+ "' failed with " +:+ newline +:+ stderr)
       else Js.ret tt) in
    if is_verbose then Js.perform (ConsoleLog stdout) else Js.ret tt.

End WithHost.

End BuildScript.

(** ** The Joy Snackbar auto-hide timer *)

Module Snackbar.

(** The second argument of [onClose]. *)
Inductive close_reason := timeout | clickaway | escapeKeyDown.

#[global] Instance close_reason_eq_dec : EqDecision close_reason.
Proof. solve_decision. Defined.

(** A duration prop: absent, [null] or a number of milliseconds. *)
Inductive duration := undefined | null | number (ms : N).

(** A spy passed as [onClose] is known by its identity. *)
Definition handler := nat.

(** The first argument of [onClose]: [null] or the DOM event. *)
Inductive event_arg := null_event | dom_event (id : nat).

Record close_call := {
  callee : handler;
  arg_event : event_arg;
  arg_reason : close_reason
}.

Record props := {
  open : bool;
  onClose : option handler;
  autoHideDuration : duration;
  resumeHideDuration : duration;
  disableWindowBlurListener : bool
}.

(** Modelled from the spec: the Snackbar component and its auto-hide hook
    are not among the sources, only Snackbar.test.tsx is. The spec
    describes "a Snackbar's auto-hide/resume timer" whose only state is
    "open/closed, timer handles", made of "timer/event-listener
    bindings". The state is therefore the fake clock of the test bed, the
    props of the last render, the handle of the pending auto-hide timeout
    (the time at which it is due) and what the spies have recorded. *)
Record state := {
  now : N;
  current : props;
  timerAutoHide : option N;
  calls : list close_call
}.

Inductive event :=
| SetProps (p : props)
| TickAsync (n : N)
| MouseEnter
| MouseLeave
| Focus
| Blur
| WindowBlur
| WindowFocus
| ClickAway (e : nat)
| KeyDownEscape (e : nat).

Definition is_nullish (d : duration) : bool :=
  match d with number _ => false | _ => true end.

Definition with_timer (t : option N) (s : state) : state :=
  {| now := now s; current := current s; timerAutoHide := t; calls := calls s |}.

Definition with_props (p : props) (s : state) : state :=
  {| now := now s; current := p; timerAutoHide := timerAutoHide s;
     calls := calls s |}.

Definition with_now (t : N) (s : state) : state :=
  {| now := t; current := current s; timerAutoHide := timerAutoHide s;
     calls := calls s |}.

Definition record_call (c : close_call) (s : state) : state :=
  {| now := now s; current := current s; timerAutoHide := timerAutoHide s;
     calls := calls s ++ [c] |}.

(** [onClose?.(event, reason)] with the handler of the last render. *)
Definition handleClose (e : event_arg) (r : close_reason) (s : state) : state :=
  match onClose (current s) with
  | Some h => record_call {| callee := h; arg_event := e; arg_reason := r |} s
  | None => s
  end.

(** Arms the timeout, replacing a pending one; nothing happens without an
    [onClose] handler or without a duration. *)
Definition setAutoHideTimer (d : duration) (s : state) : state :=
  match onClose (current s), d with
  | Some _, number ms => with_timer (Some (now s + ms)) s
  | _, _ => s
  end.

Definition clear (s : state) : state := with_timer None s.

Definition handlePause : state -> state := clear.

Section WithDefaultResume.
(** The delay used on resume when [resumeHideDuration] is not given, as
    a function of [autoHideDuration]. *)
Variable default_resume : N -> N.

Definition handleResume (s : state) : state :=
  match autoHideDuration (current s) with
  | number d =>
      setAutoHideTimer
        (match resumeHideDuration (current s) with
         | number r => number r
         | _ => number (default_resume d)
         end) s
  | _ => s
  end.

(** The effect keyed on [open] and [autoHideDuration]. *)
Definition auto_hide_effect (s : state) : state :=
  if open (current s)
  then setAutoHideTimer (autoHideDuration (current s)) s
  else s.

Definition mount (t0 : N) (p : props) : state :=
  auto_hide_effect
    {| now := t0; current := p; timerAutoHide := None; calls := [] |}.

Definition duration_eqb (a b : duration) : bool :=
  match a, b with
  | undefined, undefined | null, null => true
  | number x, number y => x =? y
  | _, _ => false
  end.

Definition setProps (p : props) (s : state) : state :=
  let old := current s in
  let s' := with_props p s in
  if Bool.eqb (open old) (open p)
     && duration_eqb (autoHideDuration old) (autoHideDuration p)
  then s'
  else auto_hide_effect (clear s').

(** The fake clock advances by [n]; a timeout due by then runs. *)
Definition tickAsync (n : N) (s : state) : state :=
  let target := now s + n in
  match timerAutoHide s with
  | Some due =>
      if due <=? target
      then handleClose null_event timeout (with_now target (clear s))
      else with_now target s
  | None => with_now target s
  end.

Definition window_listening (s : state) : bool :=
  negb (disableWindowBlurListener (current s)) && open (current s).

(** Modelled from the spec: the event-listener bindings of the missing
    Snackbar component. Entering (mouse enter, focus, window blur)
    pauses the auto-hide timer, leaving (mouse leave, blur, window
    focus) resumes it, time fires it; the onClose and timer scenarios of
    Snackbar.test.tsx that involve one snackbar are replayed against this
    function below. *)
Definition step (s : state) (ev : event) : state :=
  match ev with
  | SetProps p => setProps p s
  | TickAsync n => tickAsync n s
  | MouseEnter | Focus => handlePause s
  | MouseLeave | Blur => handleResume s
  | WindowBlur => if window_listening s then handlePause s else s
  | WindowFocus => if window_listening s then handleResume s else s
  | ClickAway e =>
      if open (current s) then handleClose (dom_event e) clickaway s else s
  | KeyDownEscape e =>
      if open (current s) then handleClose (dom_event e) escapeKeyDown s else s
  end.

Definition run (evs : list event) (s : state) : state := foldl step s evs.

End WithDefaultResume.

(** What a spy reports. *)
Definition args_of (h : handler) (s : state) : list (event_arg * close_reason) :=
  (fun c => (arg_event c, arg_reason c))
    <$> filter (fun c => callee c = h) (calls s).

Definition callCount (h : handler) (s : state) : nat := length (args_of h s).

Definition timeout_calls (s : state) : list close_call :=
  filter (fun c => arg_reason c = timeout) (calls s).

Definition ticks (ns : list N) : list event := TickAsync <$> ns.

Definition elapsed (ns : list N) : N := foldr N.add 0 ns.

(** The two user interactions of the test file. *)
Inductive interaction := mouse | keyboard.

Definition enter (k : interaction) : event :=
  match k with mouse => MouseEnter | keyboard => Focus end.

Definition leave (k : interaction) : event :=
  match k with mouse => MouseLeave | keyboard => Blur end.





(** Events that leave [autoHideDuration] without a number. *)
Definition keeps_no_duration (ev : event) : bool :=
  match ev with
  | SetProps p => is_nullish (autoHideDuration p)
  | _ => true
  end.

(** Whether a timeout due at [due] runs while the clock goes from [t]
    through the ticks [ns]. *)
Definition fired_by (due t : N) (ns : list N) : bool :=
  match ns with
  | [] => false
  | _ :: _ => due <=? t + elapsed ns
  end.

Definition timeout_call (h : handler) : close_call :=
  {| callee := h; arg_event := null_event; arg_reason := timeout |}.


(** Props as the tests write them. *)
Definition default_props : props :=
  {| open := false; onClose := None; autoHideDuration := null;
     resumeHideDuration := undefined; disableWindowBlurListener := false |}.

Definition set_open (b : bool) (p : props) : props :=
  {| open := b; onClose := onClose p; autoHideDuration := autoHideDuration p;
     resumeHideDuration := resumeHideDuration p;
     disableWindowBlurListener := disableWindowBlurListener p |}.

Definition set_onClose (h : option handler) (p : props) : props :=
  {| open := open p; onClose := h; autoHideDuration := autoHideDuration p;
     resumeHideDuration := resumeHideDuration p;
     disableWindowBlurListener := disableWindowBlurListener p |}.

Definition set_autoHideDuration (d : duration) (p : props) : props :=
  {| open := open p; onClose := onClose p; autoHideDuration := d;
     resumeHideDuration := resumeHideDuration p;
     disableWindowBlurListener := disableWindowBlurListener p |}.

Definition set_resumeHideDuration (d : duration) (p : props) : props :=
  {| open := open p; onClose := onClose p;
     autoHideDuration := autoHideDuration p; resumeHideDuration := d;
     disableWindowBlurListener := disableWindowBlurListener p |}.

Definition set_disableWindowBlurListener (b : bool) (p : props) : props :=
  {| open := open p; onClose := onClose p;
     autoHideDuration := autoHideDuration p;
     resumeHideDuration := resumeHideDuration p;
     disableWindowBlurListener := b |}.

End Snackbar.

(** The scenarios of Snackbar.test.tsx, as event scripts. Each script is a
    list of segments; the spies are inspected after each segment. *)
Module SnackbarTest.
Import Snackbar.

Definition handleClose : handler := 1%nat.
Definition handleClose1 : handler := 1%nat.
Definition handleClose2 : handler := 2%nat.

Definition autoHideDuration_2e3 : N := 2000.
Definition resumeHideDuration_3e3 : N := 3000.

Section Replay.
Variable default_resume : N -> N.

(** The asynchronous [render] of the test file: the client render
    followed by [tickAsync(0)]. *)
Definition render (p : props) : state :=
  run default_resume [TickAsync 0] (mount 0 p).

(** The states reached after each segment of a script. *)
Fixpoint checkpoints (segments : list (list event)) (s : state) : list state :=
  match segments with
  | [] => []
  | seg :: rest =>
      let s' := run default_resume seg s in s' :: checkpoints rest s'
  end.

Definition closed_with_timer : props :=
  set_autoHideDuration (number autoHideDuration_2e3)
    (set_onClose (Some handleClose) default_props).

Definition open_with_timer : props := set_open true closed_with_timer.

(** prop: onClose / should be called when clicking away *)
Definition clicking_away : list state :=
  checkpoints [[ClickAway 7%nat]]
    (render (set_onClose (Some handleClose) (set_open true default_props))).

(** prop: onClose / should be called when pressing Escape *)
Definition pressing_Escape : list state :=
  checkpoints [[KeyDownEscape 9%nat]]
    (render (set_onClose (Some handleClose) (set_open true default_props))).

(** prop: autoHideDuration / should call onClose when the timer is done *)
Definition timer_is_done : list state :=
  checkpoints
    [[SetProps open_with_timer]; [TickAsync autoHideDuration_2e3]]
    (render closed_with_timer).

(** calls onClose at timeout even if the prop changes *)
Definition prop_changes : list state :=
  checkpoints
    [[SetProps open_with_timer;
      TickAsync (autoHideDuration_2e3 / 2);
      SetProps (set_onClose (Some handleClose2) open_with_timer);
      TickAsync (autoHideDuration_2e3 / 2)]]
    (render closed_with_timer).

(** should not call onClose when the autoHideDuration is reset *)
Definition autoHideDuration_is_reset : list state :=
  checkpoints
    [[SetProps open_with_timer];
     [TickAsync (autoHideDuration_2e3 / 2);
      SetProps (set_autoHideDuration undefined open_with_timer);
      TickAsync (autoHideDuration_2e3 / 2)]]
    (render closed_with_timer).

(** should not call onClose if autoHideDuration is undefined / is null *)
Definition autoHideDuration_is (d : duration) : list state :=
  let s := render (set_autoHideDuration d open_with_timer) in
  s :: checkpoints [[TickAsync autoHideDuration_2e3]] s.

(** should not call onClose when closed *)
Definition when_closed : list state :=
  let s := render open_with_timer in
  s :: checkpoints
         [[TickAsync (autoHideDuration_2e3 / 2);
           SetProps (set_open false open_with_timer);
           TickAsync (autoHideDuration_2e3 / 2)]] s.

(** interacting / should be able to interrupt the timer *)
Definition interrupt_the_timer (k : interaction) : list state :=
  let s := render open_with_timer in
  s :: checkpoints
         [[TickAsync (autoHideDuration_2e3 / 2); enter k;
           TickAsync (autoHideDuration_2e3 / 2); leave k];
          [TickAsync 2000]] s.

Definition open_with_resume (d r : N) : props :=
  set_resumeHideDuration (number r)
    (set_autoHideDuration (number d) open_with_timer).

(** interacting / should not call onClose with not timeout after user
    interaction, and should call onClose when timer done after user
    interaction: the last tick is 2e3 in the first, resumeHideDuration
    in the second. *)
Definition after_user_interaction (k : interaction) (last : N) : list state :=
  let s :=
    render (open_with_resume autoHideDuration_2e3 resumeHideDuration_3e3) in
  s :: checkpoints
         [[TickAsync (autoHideDuration_2e3 / 2); enter k;
           TickAsync (autoHideDuration_2e3 / 2); leave k];
          [TickAsync last]] s.

(** interacting / should call onClose immediately after user interaction
    when 0 *)
Definition immediately_when_0 (k : interaction) : list state :=
  checkpoints
    [[SetProps (open_with_resume 6000 0)];
     [enter k; TickAsync 100; leave k; TickAsync 0]]
    (render (open_with_resume 6000 0)).

(** prop: disableWindowBlurListener, both tests *)
Definition window_lost_focus (disabled : bool) : list state :=
  checkpoints
    [[WindowBlur]; [TickAsync autoHideDuration_2e3]; [WindowFocus];
     [TickAsync autoHideDuration_2e3]]
    (render (set_disableWindowBlurListener disabled open_with_timer)).

End Replay.
End SnackbarTest.

(** ** The Ripple exit timer *)

Module Ripple.

Definition handler := nat.

Record props := {
  in_ : bool;
  timeout : N;
  onExited : option handler
}.

(** Modelled from the spec: the Ripple component is not among the
    sources, only its test is. The spec names "a Ripple's enter/exit
    animation lifecycle" built from "timer/event-listener bindings"; the
    state is the fake clock, the props of the last render, whether the
    component is mounted, the handle of the pending exit timeout and the
    handlers called so far. *)
Record state := {
  now : N;
  current : props;
  mounted : bool;
  exitTimer : option (N * handler);
  exited : list handler
}.

Inductive event :=
| SetIn (b : bool)
| TickAsync (n : N)
| Unmount.

(** The effect keyed on the [in] prop: leaving arms the timeout with the
    [onExited] handler, if there is one. *)
Definition exit_effect (s : state) : state :=
  match in_ (current s), onExited (current s) with
  | false, Some h =>
      {| now := now s; current := current s; mounted := mounted s;
         exitTimer := Some (now s + timeout (current s), h);
         exited := exited s |}
  | _, _ => s
  end.

Definition cleanup (s : state) : state :=
  {| now := now s; current := current s; mounted := mounted s;
     exitTimer := None; exited := exited s |}.

Definition mount (t0 : N) (p : props) : state :=
  exit_effect
    {| now := t0; current := p; mounted := true; exitTimer := None;
       exited := [] |}.

Definition setIn (b : bool) (s : state) : state :=
  if negb (mounted s) then s
  else if Bool.eqb (in_ (current s)) b then s
  else
    exit_effect
      (cleanup
         {| now := now s;
            current := {| in_ := b; timeout := timeout (current s);
                          onExited := onExited (current s) |};
            mounted := mounted s; exitTimer := exitTimer s;
            exited := exited s |}).

Definition at_time (t : N) (s : state) : state :=
  {| now := t; current := current s; mounted := mounted s;
     exitTimer := exitTimer s; exited := exited s |}.

Definition unmount (s : state) : state :=
  {| now := now s; current := current s; mounted := false;
     exitTimer := None; exited := exited s |}.

Definition tickAsync (n : N) (s : state) : state :=
  let target := now s + n in
  match exitTimer s with
  | Some (due, h) =>
      if due <=? target
      then {| now := target; current := current s; mounted := mounted s;
              exitTimer := None; exited := exited s ++ [h] |}
      else {| now := target; current := current s; mounted := mounted s;
              exitTimer := exitTimer s; exited := exited s |}
  | None =>
      {| now := target; current := current s; mounted := mounted s;
         exitTimer := None; exited := exited s |}
  end.

(** Modelled from the spec: the bindings of the missing Ripple component;
    the two timer scenarios of its test are replayed against it below. *)
Definition step (s : state) (ev : event) : state :=
  match ev with
  | SetIn b => setIn b s
  | TickAsync n => tickAsync n s
  | Unmount => unmount s
  end.

Definition run (evs : list event) (s : state) : state := foldl step s evs.

Definition callCount (h : handler) (s : state) : nat :=
  length (filter (fun x => x = h) (exited s)).

Definition ticks (ns : list N) : list event := TickAsync <$> ns.

Definition elapsed (ns : list N) : N := foldr N.add 0 ns.

End Ripple.

(** The two timer scenarios of the Ripple test. *)
Module RippleTest.
Import Ripple.

Definition handleExited : handler := 1%nat.

Definition rendered : state :=
  mount 0 {| in_ := true; timeout := 550; onExited := Some handleExited |}.

(** handleExit should trigger a timer *)
Definition trigger_a_timer : list state :=
  let s1 := run [SetIn false; TickAsync 549] rendered in
  [s1; run [TickAsync 1] s1].

(** unmount should defuse the handleExit timer *)
Definition defuse_the_timer : state :=
  run [SetIn false; Unmount; TickAsync 550] rendered.

End RippleTest.

(** ** Sample hosts and inputs, used to run the scripts on concrete data *)

Module Sample.

(** [path] left symbolic: each call shows up in the resulting string. *)
Definition path : Node.path_module :=
  {| Node.resolve := fun xs => "resolve(" +:+ Js.join "," xs +:+ ")";
     Node.join := fun xs => Js.join "/" xs;
     Node.dirname := fun p => "dirname(" +:+ p +:+ ")";
     Node.basename := fun f ext =>
       String.substring 0 (String.length f - String.length ext)%nat f;
     Node.extname := fun _ => ".js" |}.

(** A configuration that lists the same entrypoint twice. *)
Definition entrypoints_with_duplicate : list string :=
  ["@mui/material"; "@mui/joy"; "@mui/material"].

Definition sizes_of (t : BundleSizeChecker.task string) : list (string * N) :=
  [(BundleSizeChecker.task_entry t, 100 + N.of_nat (BundleSizeChecker.task_index t))].

Definition checker_host (cfg : option (BundleSizeChecker.config_object string))
  : BundleSizeChecker.host string N :=
  {| BundleSizeChecker.cpus_length := 16;
     BundleSizeChecker.rootDir := "/repo";
     BundleSizeChecker.path := path;
     BundleSizeChecker.worker_url := "file:///repo/worker.js";
     BundleSizeChecker.loaded_config := cfg;
     BundleSizeChecker.worker_result := sizes_of |}.

Definition valid_config : option (BundleSizeChecker.config_object string) :=
  Some {| BundleSizeChecker.entrypoints :=
            BundleSizeChecker.ep_array entrypoints_with_duplicate |}.

Definition default_argv : BundleSizeChecker.argv :=
  {| BundleSizeChecker.argv_analyze := false;
     BundleSizeChecker.argv_accurateBundles := false;
     BundleSizeChecker.argv_output := None |}.

Definition build_host (deps : option (gmap string string)) : BuildScript.host :=
  {| BuildScript.path := path;
     BuildScript.packageJson :=
       {| BuildScript.name := "@mui/material"; BuildScript.dependencies := deps |};
     BuildScript.versionEnvVariables := [("MUI_VERSION", BuildScript.EnvString "6.0.0")];
     BuildScript.workspaceRoot := "/repo";
     BuildScript.glob_sync_result := ["index.js"];
     BuildScript.glob_result := ["index.js"; "Button/Button.js"];
     BuildScript.exec_exit_code := 0;
     BuildScript.exec_stderr := EmptyString;
     BuildScript.exec_stdout := "Successfully compiled 2 files with Babel.";
     BuildScript.process_env := [("PATH", BuildScript.EnvString "/usr/bin")];
     BuildScript.JSON_stringify := fun _ => "{}";
     BuildScript.fileURLToPath := fun file srcDir => srcDir +:+ "/" +:+ file |}.

Definition build_argv (b : string) : BuildScript.argv :=
  {| BuildScript.bundle := b;
     BuildScript.largeFiles := false;
     BuildScript.outDir := "./build";
     BuildScript.verbose := None;
     BuildScript.rollup := false;
     BuildScript.target := None |}.

(** Half of [autoHideDuration], rounded down. *)
Definition half (d : N) : N := d / 2.

End Sample.

(** ** Statements about runs of the scripts *)

Module RunProperties.

Section SizeSnapshot.
Import BundleSizeChecker.
Context {entry size_info : Type}.

(** The loaded configuration passes the guard of [getWebpackSizes]. *)
Definition valid_configuration (c : option (config_object entry)) : Prop :=
  ∃ e l, c = Some {| entrypoints := ep_array (e :: l) |}.

(** The tasks handed to the pool for a list of distinct entries. *)
Definition tasks_for (we : webpack_environment) (uniq : list entry)
  : list (task entry) :=
  imap (fun index e =>
          {| task_entry := e; task_webpackEnvironment := we;
             task_index := index; task_total := length uniq |}) uniq.

(** What [getWebpackSizes] does before it looks at the configuration. *)
Definition setup_effects (h : host entry size_info)
  : list (effect entry size_info) :=
  [NewPiscina (worker_url h) (MAX_CONCURRENCY h);
   FseEmptyDir (Node.join (path h) [rootDir h; "build"]);
   LoadConfig (rootDir h)].

(** A run that neither creates a worker pool nor hands work to one. *)
Definition single_threaded (t : list (effect entry size_info)) : Prop :=
  ∀ e, e ∈ t -> is_pool_creation e = false ∧ is_worker_dispatch e = false.

(** A run that leaves the file system as it found it. *)
Definition writes_nothing (t : list (effect entry size_info)) : Prop :=
  ∀ e, e ∈ t -> is_file_write e = false.
End SizeSnapshot.

(** A run that does not end with a thrown error value. *)
Definition throws_nothing {E A} (m : Js.io E A) : Prop :=
  ∀ e, Js.outcome m ≠ Js.Throw e.

(** A run that ends with a thrown [TypeError], whatever its message. *)
Definition throws_TypeError {E A} (m : Js.io E A) : Prop :=
  ∃ msg, Js.outcome m = Js.Throw {| Js.class := Js.TypeError; Js.message := msg |}.

(** A run that does not end by throwing one of the exceptions in [bad]. *)
Definition avoids {E A} (bad : Js.exception -> Prop) (m : Js.io E A) : Prop :=
  ∀ e, Js.outcome m = Js.Throw e -> ¬ bad e.

(** The [TypeError] of the bundle check, for some bundle name. *)
Definition is_unrecognized_bundle (e : Js.exception) : Prop :=
  ∃ b, e = {| Js.class := Js.TypeError;
              Js.message := BuildScript.unrecognized_bundle b |}.

(** The [Error] of the [@babel/runtime] check. *)
Definition is_needs_babel_runtime (e : Js.exception) : Prop :=
  e = {| Js.class := Js.Error; Js.message := BuildScript.needs_babel_runtime |}.

End RunProperties.

(** ** Further statements about runs of the scripts *)

Module ScriptProperties.

(** Every host call of a run satisfies [P]. *)
Definition always {E A} (P : E -> Prop) (m : Js.io E A) : Prop :=
  Forall P (Js.effects m).

Section Fresh.
Context {A : Type} `{EqDecision A}.

(** The members of [l] that are not in [seen], in order, each once. *)
Fixpoint fresh_after (seen l : list A) : list A :=
  match l with
  | [] => []
  | y :: l' =>
      if decide (y ∈ seen) then fresh_after seen l'
      else y :: fresh_after (y :: seen) l'
  end.
End Fresh.

(** Reading a property of an object written with spreads: the last
    occurrence of the key counts. *)
Fixpoint env_get (obj : BuildScript.env_object) (key : string)
  : option BuildScript.env_value :=
  match obj with
  | [] => None
  | (k, v) :: rest =>
      match env_get rest key with
      | Some v' => Some v'
      | None => if decide (k = key) then Some v else None
      end
  end.

Definition is_subprocess (e : BuildScript.effect) : bool :=
  match e with BuildScript.Exec _ _ => true | _ => false end.

Definition is_console (e : BuildScript.effect) : bool :=
  match e with BuildScript.ConsoleLog _ => true | _ => false end.

Definition is_rollup (e : BuildScript.effect) : bool :=
  match e with
  | BuildScript.Glob _ _ _ | BuildScript.Rollup _ _ _ _ _ _ _
  | BuildScript.RollupWrite _ _ _ => true
  | _ => false
  end.

(** The environment handed to a subprocess has [key] set to [v]. *)
Definition exec_env_has (key : string) (v : BuildScript.env_value)
    (e : BuildScript.effect) : Prop :=
  match e with
  | BuildScript.Exec _ env => env_get env key = Some v
  | _ => True
  end.

(** The bundles written by a run: directory and format, in order. *)
Definition writes_of (t : list BuildScript.effect) : list (string * string) :=
  omap (fun e => match e with
                 | BuildScript.RollupWrite dir format _ => Some (dir, format)
                 | _ => None
                 end) t.

(** Whether a usable [@babel/runtime] version is declared. *)
Definition has_babel_runtime (h : BuildScript.host) : Prop :=
  ∃ deps v, BuildScript.dependencies (BuildScript.packageJson h) = Some deps
            ∧ deps !! "@babel/runtime" = Some v ∧ v ≠ EmptyString.

(** Whether every top-level source file is an index file. *)
Definition only_index_files (h : BuildScript.host) : Prop :=
  Forall (fun file =>
            Node.basename (BuildScript.path h) file
              (Node.extname (BuildScript.path h) file) = "index")
         (BuildScript.glob_sync_result h).

(** The sub-directory of the output directory a target is written to. *)
Definition target_dir (packages : bool) (target : string) : option string :=
  Js.object_get
    [("cjs", if packages then "./node" else "./");
     ("modern", "./modern");
     ("esm", if packages then "./" else "./esm")] target.

(** The [onwarn] handed to rollup hands a warning on to the default
    handler unless its code is MODULE_LEVEL_DIRECTIVE. *)
Definition forwards_all_but_directive (e : BuildScript.effect) : Prop :=
  match e with
  | BuildScript.Rollup _ _ ow _ _ _ _ =>
      ∀ w, ow w = false
           ↔ BuildScript.code w = Some "MODULE_LEVEL_DIRECTIVE"
  | _ => True
  end.

(** The variables the script itself sets for the subprocess, given the
    declared [@babel/runtime] version. *)
Definition script_env (h : BuildScript.host) (a : BuildScript.argv)
    (version : string) : BuildScript.env_object :=
  [("NODE_ENV", BuildScript.EnvString "production");
   ("BABEL_ENV", BuildScript.EnvString (BuildScript.bundle a));
   ("MUI_BUILD_VERBOSE",
     match BuildScript.verbose a with
     | Some b => BuildScript.EnvBoolean b
     | None => BuildScript.EnvUndefined
     end);
   ("MUI_BABEL_RUNTIME_VERSION", BuildScript.EnvString version)]
  ++ BuildScript.versionEnvVariables h.

(** The values yargs accepts for the target option. *)
Definition target_choices : list string := ["cjs"; "esm"; "modern"].

(** What one target makes rollup write: the directory under [out] and the
    module format. *)
Definition written_for (h : BuildScript.host) (out : string) (packages : bool)
    (target : string) (w : string * string) : Prop :=
  ∃ d, target_dir packages target = Some d
       ∧ w = (Node.resolve (BuildScript.path h) [out; d],
              if decide (target = "cjs") then "commonjs" else "es").

(** The target a bundle stands for when no target option is given. *)
Definition default_target (bundle : string) : string :=
  if decide (bundle = "node") then "cjs"
  else if decide (bundle = "modern") then "modern" else "esm".

Definition set_largeFiles (lf : bool) (a : BuildScript.argv) : BuildScript.argv :=
  {| BuildScript.bundle := BuildScript.bundle a;
     BuildScript.largeFiles := lf;
     BuildScript.outDir := BuildScript.outDir a;
     BuildScript.verbose := BuildScript.verbose a;
     BuildScript.rollup := BuildScript.rollup a;
     BuildScript.target := BuildScript.target a |}.

Definition set_target (ts : option (list string)) (a : BuildScript.argv)
  : BuildScript.argv :=
  {| BuildScript.bundle := BuildScript.bundle a;
     BuildScript.largeFiles := BuildScript.largeFiles a;
     BuildScript.outDir := BuildScript.outDir a;
     BuildScript.verbose := BuildScript.verbose a;
     BuildScript.rollup := BuildScript.rollup a;
     BuildScript.target := ts |}.

End ScriptProperties.

(** ** More sample inputs *)

Module MoreSamples.

Definition with_babel_runtime : BuildScript.host :=
  Sample.build_host (Some {[ "@babel/runtime" := "^7.26.0" ]}).

Definition rollup_argv (ts : option (list string)) : BuildScript.argv :=
  {| BuildScript.bundle := "stable";
     BuildScript.largeFiles := false;
     BuildScript.outDir := "./build";
     BuildScript.verbose := Some false;
     BuildScript.rollup := true;
     BuildScript.target := ts |}.

Definition no_config : BundleSizeChecker.host string N := Sample.checker_host None.

Definition verbose_argv : BuildScript.argv :=
  {| BuildScript.bundle := "node";
     BuildScript.largeFiles := false;
     BuildScript.outDir := "./build";
     BuildScript.verbose := Some true;
     BuildScript.rollup := false;
     BuildScript.target := None |}.

Definition no_environment : BundleSizeChecker.webpack_environment :=
  {| BundleSizeChecker.analyze := false;
     BundleSizeChecker.accurateBundles := false |}.

End MoreSamples.

(** * Properties *)

(** ** The script monad *)

Section IoFacts.
Context {E : Type}.

Lemma bind_ret_l {A B} (a : A) (k : A -> Js.io E B) :
  Js.bind (Js.ret a) k = k a.
Proof. unfold Js.bind, Js.ret. destruct (k a); reflexivity. Qed.

Lemma bind_perform {B} (e : E) (k : unit -> Js.io E B) :
  Js.bind (Js.perform e) k = (e :: Js.effects (k tt), Js.outcome (k tt)).
Proof. unfold Js.bind, Js.perform. destruct (k tt); reflexivity. Qed.

End IoFacts.

(** ** JS sets *)

Section JsSetFacts.
Context {A : Type} `{EqDecision A}.

Lemma foldl_Set_add_spec (xs acc : list A) :
  NoDup acc ->
  NoDup (foldl Js.Set_add acc xs)
  ∧ ∀ x, x ∈ foldl Js.Set_add acc xs ↔ x ∈ acc ∨ x ∈ xs.
Proof.
  revert acc. induction xs as [|y xs IH]; intros acc Hacc; simpl.
  - split; [done|]. intros x. rewrite elem_of_nil. tauto.
  - assert (Hadd : NoDup (Js.Set_add acc y)).
    { unfold Js.Set_add. case_decide; [done|].
      apply NoDup_app. split_and!; [done| |apply NoDup_singleton].
      intros x Hx Hy. apply list_elem_of_singleton in Hy. by subst. }
    destruct (IH _ Hadd) as [Hnd Hin]. split; [done|].
    intros x. rewrite Hin, elem_of_cons. unfold Js.Set_add.
    case_decide as Hy.
    + split; [intros [?|?]; auto|intros [?|[->|?]]; auto].
    + rewrite elem_of_app, list_elem_of_singleton. tauto.
Qed.

Lemma new_Set_NoDup (xs : list A) : NoDup (Js.new_Set xs).
Proof. apply foldl_Set_add_spec, NoDup_nil_2. Qed.

Lemma new_Set_elem_of (xs : list A) x : x ∈ Js.new_Set xs ↔ x ∈ xs.
Proof.
  unfold Js.new_Set.
  destruct (foldl_Set_add_spec xs [] (NoDup_nil_2)) as [_ ->].
  rewrite elem_of_nil. tauto.
Qed.

Lemma filter_absent {B} (f : B -> A) (l : list B) (x : A) :
  x ∉ f <$> l -> filter (fun t => f t = x) l = [].
Proof.
  induction l as [|b l IH]; simpl; intros Hx; [done|].
  apply not_elem_of_cons in Hx as [Hb Hl].
  rewrite filter_cons_False by congruence. auto.
Qed.

Lemma filter_once {B} (f : B -> A) (l : list B) (x : A) :
  NoDup (f <$> l) -> x ∈ f <$> l ->
  length (filter (fun t => f t = x) l) = 1%nat.
Proof.
  induction l as [|b l IH]; simpl; intros Hnd Hin.
  - by apply elem_of_nil in Hin.
  - apply NoDup_cons in Hnd as [Hb Hnd].
    destruct (decide (f b = x)) as [Hfb|Hfb].
    + rewrite filter_cons_True by done. subst x.
      rewrite filter_absent by done. reflexivity.
    + rewrite filter_cons_False by done.
      apply elem_of_cons in Hin as [Hx|Hx]; [congruence|auto].
Qed.

End JsSetFacts.

(** ** The size-snapshot script *)

Section SizeSnapshotFacts.
Import BundleSizeChecker RunProperties.
Context {entry : Type} `{EqDecision entry} {size_info : Type}.
Implicit Types (h : host entry size_info) (we : webpack_environment).
Implicit Types (entries : list entry).

Lemma Promise_all_worker_run h (ts : list (task entry)) :
  Js.Promise_all (worker_run h <$> ts)
  = (WorkerRun <$> ts, Js.Normal (worker_result h <$> ts)).
Proof.
  induction ts as [|t ts IH]; [reflexivity|].
  rewrite fmap_cons. cbn [Js.Promise_all]. rewrite IH. reflexivity.
Qed.

Lemma submitted_WorkerRun (ts : list (task entry)) :
  submitted (size_info := size_info) (WorkerRun <$> ts) = ts.
Proof.
  induction ts as [|t ts IH]; [done|].
  rewrite fmap_cons. unfold submitted in *. cbn [omap list_omap]. by f_equal.
Qed.

Lemma task_entry_tasks_for we (uniq : list entry) :
  task_entry <$> tasks_for we uniq = uniq.
Proof.
  unfold tasks_for. generalize (length uniq) as total. intros total.
  rewrite fmap_imap.
  rewrite (imap_ext _ (const id)) by done.
  rewrite imap_const. apply list_fmap_id.
Qed.

Lemma tasks_for_lookup we (uniq : list entry) i t :
  tasks_for we uniq !! i = Some t ->
  task_index t = i ∧ task_total t = length uniq
  ∧ task_webpackEnvironment t = we ∧ uniq !! i = Some (task_entry t).
Proof.
  unfold tasks_for. rewrite list_lookup_imap.
  destruct (uniq !! i) as [e|]; simpl; [|done].
  intros [= <-]. done.
Qed.

Lemma getWebpackSizes_valid h we entries :
  loaded_config h = Some {| entrypoints := ep_array entries |} ->
  entries ≠ [] ->
  getWebpackSizes h we
  = (setup_effects h ++ (WorkerRun <$> tasks_for we (Js.new_Set entries)),
     Js.Normal (concat (worker_result h <$> tasks_for we (Js.new_Set entries)))).
Proof.
  intros Hcfg Hne. unfold getWebpackSizes, loadConfig. rewrite Hcfg.
  destruct entries as [|e l]; [done|].
  assert (Himap :
    imap (fun index entry0 =>
            worker_run h {| task_entry := entry0; task_webpackEnvironment := we;
                            task_index := index;
                            task_total := length (Js.new_Set (e :: l)) |})
         (Js.new_Set (e :: l))
    = worker_run h <$> tasks_for we (Js.new_Set (e :: l))).
  { unfold tasks_for. by rewrite fmap_imap. }
  cbn [not_config not_entrypoints not_isArray length_is_0 orb
       config_entrypoints Js.bind Js.perform Js.ret].
  cbv zeta. rewrite Himap, Promise_all_worker_run.
  unfold Js.bind, Js.ret, setup_effects. simpl. by rewrite app_nil_r.
Qed.

Lemma getWebpackSizes_invalid h we :
  ¬ valid_configuration (loaded_config h) ->
  getWebpackSizes h we
  = (setup_effects h,
     Js.Throw {| Js.class := Js.Error; Js.message := no_valid_configuration |}).
Proof.
  intros Hbad. unfold getWebpackSizes, loadConfig.
  destruct (loaded_config h) as [[[| |[|e l]]]|]; try reflexivity.
  destruct Hbad. by exists e, l.
Qed.

End SizeSnapshotFacts.

Section SizeSnapshotTheorems.
Import BundleSizeChecker RunProperties.
Context {entry : Type} `{EqDecision entry} {size_info : Type}.
Implicit Types (h : host entry size_info) (we : webpack_environment).
Implicit Types (entries : list entry).

(** C8: [getWebpackSizes] deduplicates the configured entrypoints before
    dispatching work. For a configuration with a non-empty entrypoints
    array (with or without duplicates), the entries of the submitted tasks
    are the distinct entrypoints, each submitted exactly once, each task
    carries its position and the number of distinct entries, and the
    result is the concatenation of one size array per submitted task. *)
Theorem getWebpackSizes_deduplicates h we entries :
  loaded_config h = Some {| entrypoints := ep_array entries |} ->
  entries ≠ [] ->
  let r := getWebpackSizes h we in
  let sent := submitted (Js.effects r) in
  task_entry <$> sent = Js.new_Set entries
  ∧ NoDup (task_entry <$> sent)
  ∧ (∀ e, e ∈ entries ->
       length (filter (fun t => task_entry t = e) sent) = 1%nat)
  ∧ (∀ t, t ∈ sent -> task_entry t ∈ entries)
  ∧ (∀ i t, sent !! i = Some t ->
       task_index t = i ∧ task_total t = length (Js.new_Set entries)
       ∧ task_webpackEnvironment t = we)
  ∧ Js.outcome r = Js.Normal (concat (worker_result h <$> sent)).
Proof.
  intros Hcfg Hne r sent.
  assert (Hsent : sent = tasks_for we (Js.new_Set entries)).
  { subst sent r. rewrite (getWebpackSizes_valid h we entries Hcfg Hne).
    cbn [Js.effects fst]. unfold submitted. rewrite omap_app.
    change (omap _ (WorkerRun <$> ?ts)) with
      (submitted (size_info := size_info) (WorkerRun <$> ts)).
    by rewrite submitted_WorkerRun. }
  assert (Hentries : task_entry <$> sent = Js.new_Set entries).
  { rewrite Hsent. apply task_entry_tasks_for. }
  split_and!.
  - done.
  - rewrite Hentries. apply new_Set_NoDup.
  - intros e He. apply filter_once.
    + rewrite Hentries. apply new_Set_NoDup.
    + rewrite Hentries. by apply new_Set_elem_of.
  - intros t Ht. apply new_Set_elem_of. rewrite <- Hentries.
    by apply list_elem_of_fmap_2.
  - intros i t Hi. rewrite Hsent in Hi.
    apply tasks_for_lookup in Hi as (? & ? & ? & _). done.
  - subst r. rewrite (getWebpackSizes_valid h we entries Hcfg Hne).
    cbn [Js.outcome snd]. by rewrite Hsent.
Qed.

(** C2, as amended: the size-snapshot script is not single-threaded in the
    claimed sense. [getWebpackSizes] first creates one worker pool, with
    [maxThreads] set to [MAX_CONCURRENCY] = min(8, CPU count); no second
    pool is created, and the pool is handed one task per distinct
    configured entrypoint. *)
Theorem getWebpackSizes_worker_pool h we :
  ∃ rest,
    Js.effects (getWebpackSizes h we)
    = NewPiscina (worker_url h) (N.min 8 (cpus_length h)) :: rest
    ∧ Forall (fun e => is_pool_creation e = false) rest
    ∧ N.min 8 (cpus_length h) <= 8
    ∧ N.min 8 (cpus_length h) <= cpus_length h
    ∧ length (submitted rest)
      = length (Js.new_Set (config_entrypoints (loaded_config h))).
Proof.
  destruct (loaded_config h) as [[[| |[|e l]]]|] eqn:Hcfg.
  1-3, 5:
    rewrite getWebpackSizes_invalid
      by (rewrite Hcfg; intros (? & ? & ?); discriminate);
    eexists; split; [reflexivity|];
    split_and!; [repeat constructor|lia|lia|reflexivity].
  rewrite (getWebpackSizes_valid h we (e :: l)) by done.
  eexists. split; [reflexivity|].
  split_and!; [|lia|lia|].
  - repeat (constructor; [reflexivity|]).
    apply Forall_fmap, Forall_true. done.
  - cbn [submitted omap list_omap config_entrypoints].
    change (omap _ (WorkerRun <$> ?ts)) with
      (submitted (size_info := size_info) (WorkerRun <$> ts)).
    rewrite submitted_WorkerRun. unfold tasks_for. by rewrite length_imap.
Qed.

(** What [run] does when the configuration is rejected: the error of
    [getWebpackSizes] propagates and nothing is written. *)
Lemma run_invalid h a :
  ¬ valid_configuration (loaded_config h) ->
  run h a
  = (setup_effects h,
     Js.Throw {| Js.class := Js.Error; Js.message := no_valid_configuration |}).
Proof.
  intros Hbad. unfold run. by rewrite getWebpackSizes_invalid.
Qed.

(** C4, as amended: the size-snapshot script does write to the file
    system and produces JSON. With an accepted configuration, [run]
    empties the build directory, collects the sizes, creates the directory
    of the snapshot path and writes the sizes there as one JSON object
    with two-space indentation, then logs the path. *)
Theorem run_writes_snapshot h a entries :
  loaded_config h = Some {| entrypoints := ep_array entries |} ->
  entries ≠ [] ->
  let dest := snapshotDestPath h a in
  let we := {| analyze := argv_analyze a;
               accurateBundles := argv_accurateBundles a |} in
  let ts := tasks_for we (Js.new_Set entries) in
  run h a
  = (setup_effects h ++ (WorkerRun <$> ts)
       ++ [FseMkdirp (Node.dirname (path h) dest);
           FseWriteJSON dest
             (Js.Object_fromEntries (concat (worker_result h <$> ts))) 2;
           ConsoleLog ("Bundle size snapshot written to " +:+ dest)],
     Js.Normal tt).
Proof.
  intros Hcfg Hne dest we ts. unfold run.
  rewrite (getWebpackSizes_valid h _ entries Hcfg Hne).
  unfold Js.bind, Js.perform. simpl. reflexivity.
Qed.

End SizeSnapshotTheorems.

(** ** The build script *)

Section AvoidsFacts.
Import RunProperties.
Context {E : Type} (bad : Js.exception -> Prop).

Lemma avoids_ret {A} (a : A) : avoids (E := E) bad (Js.ret a).
Proof. intros e He. discriminate. Qed.

Lemma avoids_perform (x : E) : avoids bad (Js.perform x).
Proof. intros e He. discriminate. Qed.

Lemma avoids_throw {A} c msg :
  ¬ bad {| Js.class := c; Js.message := msg |} ->
  avoids (E := E) (A := A) bad (Js.throw c msg).
Proof. intros Hbad e [= <-]. done. Qed.

Lemma avoids_bind {A B} (m : Js.io E A) (k : A -> Js.io E B) :
  avoids bad m -> (∀ a, avoids bad (k a)) -> avoids bad (Js.bind m k).
Proof.
  intros Hm Hk e. destruct m as [t [a|e']]; simpl.
  - specialize (Hk a). destruct (k a) as [t2 r]. exact (Hk e).
  - intros [= <-]. exact (Hm e' eq_refl).
Qed.

Lemma avoids_Promise_all {A} (ms : list (Js.io E A)) :
  Forall (avoids bad) ms -> avoids bad (Js.Promise_all ms).
Proof.
  induction 1 as [|m ms Hm _ IH]; cbn [Js.Promise_all].
  - apply avoids_ret.
  - intros e. cbn [Js.outcome snd].
    destruct (Js.outcome m) as [a|e1] eqn:Hm1.
    + destruct (Js.outcome (Js.Promise_all ms)) as [l|e2] eqn:Hm2;
        [discriminate|].
      intros [= <-]. by apply (IH e2).
    + intros [= <-]. by apply (Hm e1).
Qed.

Lemma outcome_bind_perform {B} (x : E) (k : unit -> Js.io E B) :
  Js.outcome (Js.bind (Js.perform x) k) = Js.outcome (k tt).
Proof. by rewrite bind_perform. Qed.

End AvoidsFacts.

Section BuildScriptFacts.
Import BuildScript RunProperties.
Implicit Types (h : host) (a : argv).

Lemma not_unrecognized c msg :
  (c = Js.Error ∨ ∃ ch rest, msg = String ch rest ∧ ch ≠ "U"%char) ->
  ¬ is_unrecognized_bundle {| Js.class := c; Js.message := msg |}.
Proof.
  intros [->|(ch & rest & -> & Hch)] [b Hb]; [discriminate|].
  injection Hb as Hmsg. unfold unrecognized_bundle in Hmsg.
  simpl in Hmsg. congruence.
Qed.

Lemma not_needs_babel_runtime c msg :
  (c = Js.TypeError ∨ ∃ ch rest, msg = String ch rest ∧ ch ≠ "p"%char) ->
  ¬ is_needs_babel_runtime {| Js.class := c; Js.message := msg |}.
Proof.
  intros [->|(ch & rest & -> & Hch)] Hb; [discriminate|].
  injection Hb as Hmsg. unfold needs_babel_runtime in Hmsg. congruence.
Qed.

Lemma run_unrecognized h a :
  bundle a ∉ validBundles ->
  run h a
  = ([], Js.Throw {| Js.class := Js.TypeError;
                     Js.message := unrecognized_bundle (bundle a) |}).
Proof.
  intros Hb. unfold run, includes.
  rewrite bool_decide_eq_false_2 by done. reflexivity.
Qed.

Lemma run_recognized_reads h a :
  bundle a ∈ validBundles ->
  ∃ rest,
    Js.effects (run h a)
    = ReadFile (Node.resolve (path h) ["./package.json"]) "utf8" :: rest.
Proof.
  intros Hb. unfold run, includes.
  rewrite bool_decide_eq_true_2 by done. cbn [negb].
  rewrite bind_ret_l, bind_perform. eexists. reflexivity.
Qed.

Lemma not_designed c msg ch rest :
  msg = String ch rest -> ch ≠ "U"%char -> ch ≠ "p"%char ->
  ¬ (is_unrecognized_bundle {| Js.class := c; Js.message := msg |}
     ∨ is_needs_babel_runtime {| Js.class := c; Js.message := msg |}).
Proof.
  intros -> HU Hp [H|H].
  - revert H. apply not_unrecognized. right. by do 2 eexists.
  - revert H. apply not_needs_babel_runtime. right. by do 2 eexists.
Qed.

Ltac avoid_step :=
  first
    [ apply avoids_ret
    | apply avoids_perform
    | apply avoids_throw;
      eapply not_designed; [reflexivity|discriminate|discriminate]
    | apply avoids_bind; [|intros ?]
    | apply avoids_Promise_all, Forall_fmap, Forall_true; intros ?;
      unfold write_target
    | progress unfold path_resolve2
    | match goal with
      | |- avoids _ (if ?b then _ else _) => destruct b
      | |- avoids _ (match ?x with _ => _ end) => destruct x
      end ].

(** Past the bundle check, [run] reads package.json, looks up
    [@babel/runtime], checks it, and whatever follows throws neither of
    the two designed errors. *)
Lemma run_recognized_shape h a :
  bundle a ∈ validBundles ->
  ∃ tail : option string -> Js.io effect unit,
    (∀ v, avoids (fun e => is_unrecognized_bundle e ∨ is_needs_babel_runtime e)
            (tail v))
    ∧ run h a
      = Js.bind (Js.perform (ReadFile (Node.resolve (path h) ["./package.json"]) "utf8"))
          (fun _ =>
             Js.bind (read_babel_runtime h)
               (fun v =>
                  Js.bind
                    (if negb (is_truthy_string v)
                     then Js.throw Js.Error needs_babel_runtime
                     else Js.ret tt)
                    (fun _ => tail v))).
Proof.
  intros Hb. eexists. split; last first.
  - unfold run, includes. rewrite bool_decide_eq_true_2 by done.
    cbn [negb]. rewrite bind_ret_l. reflexivity.
  - intros v. cbv beta zeta. repeat avoid_step.
Qed.

End BuildScriptFacts.

Section BuildScriptTheorems.
Import BuildScript RunProperties.
Implicit Types (h : host) (a : argv).

Lemma avoids_weaken {E A} (bad bad' : Js.exception -> Prop) (m : Js.io E A) :
  (∀ e, bad' e -> bad e) -> avoids bad m -> avoids bad' m.
Proof. intros Himp Hm e He Hbad. exact (Hm e He (Himp e Hbad)). Qed.

Lemma run_recognized_not_rejected h a :
  bundle a ∈ validBundles -> avoids is_unrecognized_bundle (run h a).
Proof.
  intros Hb. destruct (run_recognized_shape h a Hb) as (tail & Htail & ->).
  apply avoids_bind; [apply avoids_perform|]. intros _.
  apply avoids_bind.
  { unfold read_babel_runtime. destruct (dependencies (packageJson h)).
    - apply avoids_ret.
    - apply avoids_throw, not_unrecognized. right.
      do 2 eexists. split; [reflexivity|discriminate]. }
  intros v. apply avoids_bind.
  { destruct (negb (is_truthy_string v)).
    - apply avoids_throw, not_unrecognized. by left.
    - apply avoids_ret. }
  intros _. eapply avoids_weaken; [|apply Htail]. intros e He. by left.
Qed.

(** X18: [run] throws the [TypeError] of its bundle check, "Unrecognized
    bundle ...", if and only if the bundle argument is not one of
    'modern', 'node' or 'stable', and it is exactly then that the run ends
    without a single host call: the check precedes every file access and
    every subprocess. *)
Theorem run_checks_bundle_first h a :
  (Js.outcome (run h a)
   = Js.Throw {| Js.class := Js.TypeError;
                 Js.message := unrecognized_bundle (bundle a) |}
   ↔ bundle a ∉ validBundles)
  ∧ (Js.effects (run h a) = [] ↔ bundle a ∉ validBundles)
  ∧ (bundle a ∉ validBundles ↔
     bundle a ≠ "modern" ∧ bundle a ≠ "node" ∧ bundle a ≠ "stable").
Proof.
  split_and!.
  - destruct (decide (bundle a ∈ validBundles)) as [Hb|Hb].
    + split; [|done]. intros Hout. exfalso.
      eapply (run_recognized_not_rejected h a Hb); [exact Hout|].
      by eexists.
    + by rewrite run_unrecognized.
  - destruct (decide (bundle a ∈ validBundles)) as [Hb|Hb].
    + split; [|done]. intros Heff.
      destruct (run_recognized_reads h a Hb) as [rest Hrest]. congruence.
    + by rewrite run_unrecognized.
  - unfold validBundles. rewrite !not_elem_of_cons.
    pose proof (not_elem_of_nil (bundle a)). tauto.
Qed.

(** C9: the code departs from the claim when package.json has no
    dependencies object. With a recognized bundle, [run] reads
    package.json and the unguarded
    [packageJson.dependencies['@babel/runtime']] then raises the engine's
    [TypeError]: a [TypeError] although the bundle is one of 'modern',
    'node' and 'stable'. The sibling case, a dependencies object without
    the entry, throws the designed [Error]. *)
Theorem run_TypeError_without_dependencies h a :
  bundle a ∈ validBundles ->
  dependencies (packageJson h) = None ->
  run h a
  = ([ReadFile (Node.resolve (path h) ["./package.json"]) "utf8"],
     Js.Throw {| Js.class := Js.TypeError;
                 Js.message := cannot_read_undefined "@babel/runtime" |})
  ∧ throws_TypeError (run h a).
Proof.
  intros Hb Hdeps.
  assert (Hrun : run h a
    = ([ReadFile (Node.resolve (path h) ["./package.json"]) "utf8"],
       Js.Throw {| Js.class := Js.TypeError;
                   Js.message := cannot_read_undefined "@babel/runtime" |})).
  { destruct (run_recognized_shape h a Hb) as (tail & _ & ->).
    unfold read_babel_runtime. rewrite Hdeps. reflexivity. }
  split; [exact Hrun|]. rewrite Hrun. by eexists.
Qed.

(** C3, as amended: the two scripts do throw designed error values.
    [getWebpackSizes] throws an [Error] with the "No valid configuration
    found ..." message exactly when the loaded configuration is missing
    or its entrypoints is not a non-empty array; the build script throws
    a [TypeError] "Unrecognized bundle ..." exactly when the bundle is not
    a valid one, and an [Error] "package.json needs to have a dependency
    on `@babel/runtime` ..." exactly when the bundle is valid and the
    dependencies of package.json have no usable [@babel/runtime] entry. *)
Theorem scripts_throw_designed_errors
    {entry : Type} `{EqDecision entry} {size_info : Type}
    (sh : BundleSizeChecker.host entry size_info) we h a :
  (Js.outcome (BundleSizeChecker.getWebpackSizes sh we)
   = Js.Throw {| Js.class := Js.Error;
                 Js.message := BundleSizeChecker.no_valid_configuration |}
   ↔ ¬ valid_configuration (BundleSizeChecker.loaded_config sh))
  ∧ (Js.outcome (run h a)
     = Js.Throw {| Js.class := Js.TypeError;
                   Js.message := unrecognized_bundle (bundle a) |}
     ↔ bundle a ∉ validBundles)
  ∧ (Js.outcome (run h a)
     = Js.Throw {| Js.class := Js.Error; Js.message := needs_babel_runtime |}
     ↔ bundle a ∈ validBundles
       ∧ ∃ deps, dependencies (packageJson h) = Some deps
                 ∧ is_truthy_string (deps !! "@babel/runtime") = false).
Proof.
  split_and!.
  - split.
    + intros Hout [e [l Hcfg]].
      rewrite (getWebpackSizes_valid sh we (e :: l)) in Hout by done.
      discriminate.
    + intros Hbad. by rewrite getWebpackSizes_invalid.
  - destruct (decide (bundle a ∈ validBundles)) as [Hb|Hb].
    + split; [|done]. intros Hout. exfalso.
      eapply (run_recognized_not_rejected h a Hb); [exact Hout|].
      by eexists.
    + by rewrite run_unrecognized.
  - destruct (decide (bundle a ∈ validBundles)) as [Hb|Hb].
    2: { rewrite run_unrecognized by done. split; [discriminate|tauto]. }
    destruct (run_recognized_shape h a Hb) as (tail & Htail & ->).
    rewrite outcome_bind_perform. unfold read_babel_runtime.
    destruct (dependencies (packageJson h)) as [deps|].
    2: { split; [discriminate|]. by intros (_ & ? & ? & _). }
    rewrite bind_ret_l.
    destruct (is_truthy_string (deps !! "@babel/runtime")) eqn:Ht;
      cbn [negb].
    + rewrite bind_ret_l. split.
      * intros Hout. exfalso. eapply Htail; [exact Hout|]. by right.
      * intros (_ & deps' & [= <-] & Ht'). congruence.
    + split; [|done]. intros _. split; [done|]. by exists deps.
Qed.

End BuildScriptTheorems.

(** ** The scripts on the sample host *)

Section SampleRuns.
Import RunProperties.

(** C8 on a configuration that lists "@mui/material" twice. *)
Lemma getWebpackSizes_deduplicates_sample :
  let h := Sample.checker_host Sample.valid_config in
  let we := {| BundleSizeChecker.analyze := false;
               BundleSizeChecker.accurateBundles := false |} in
  let r := BundleSizeChecker.getWebpackSizes h we in
  let sent := BundleSizeChecker.submitted (Js.effects r) in
  (BundleSizeChecker.loaded_config h
   = Some {| BundleSizeChecker.entrypoints :=
               BundleSizeChecker.ep_array Sample.entrypoints_with_duplicate |}
   ∧ Sample.entrypoints_with_duplicate ≠ [])
  ∧ BundleSizeChecker.task_entry <$> sent
    = Js.new_Set Sample.entrypoints_with_duplicate
  ∧ NoDup (BundleSizeChecker.task_entry <$> sent)
  ∧ (∀ e, e ∈ Sample.entrypoints_with_duplicate ->
       length (filter (fun t => BundleSizeChecker.task_entry t = e) sent) = 1%nat)
  ∧ (∀ t, t ∈ sent ->
       BundleSizeChecker.task_entry t ∈ Sample.entrypoints_with_duplicate)
  ∧ (∀ i t, sent !! i = Some t ->
       BundleSizeChecker.task_index t = i
       ∧ BundleSizeChecker.task_total t
         = length (Js.new_Set Sample.entrypoints_with_duplicate)
       ∧ BundleSizeChecker.task_webpackEnvironment t = we)
  ∧ Js.outcome r
    = Js.Normal (concat (BundleSizeChecker.worker_result h <$> sent)).
Proof.
  intros h we r sent. split.
  - split; [reflexivity|discriminate].
  - apply (getWebpackSizes_deduplicates h we Sample.entrypoints_with_duplicate);
      [reflexivity|discriminate].
Defined.

Example sample_submitted_entries :
  BundleSizeChecker.task_entry
    <$> BundleSizeChecker.submitted
          (Js.effects
             (BundleSizeChecker.run (Sample.checker_host Sample.valid_config)
                Sample.default_argv))
  = ["@mui/material"; "@mui/joy"].
Proof. vm_compute. reflexivity. Qed.

(** C2 as stated fails: the run of the size-snapshot script on the sample
    host creates a worker pool of eight threads. *)
Lemma snapshot_run_not_single_threaded :
  ¬ single_threaded
      (Js.effects
         (BundleSizeChecker.run (Sample.checker_host Sample.valid_config)
            Sample.default_argv)).
Proof.
  intros Hsingle.
  destruct (Hsingle (BundleSizeChecker.NewPiscina "file:///repo/worker.js" 8))
    as [Hpool _]; [|discriminate].
  vm_compute. left.
Qed.

(** C3 as stated fails: without a configuration [getWebpackSizes] throws
    an [Error] with a message of its own. *)
Lemma getWebpackSizes_throws_without_config :
  ¬ throws_nothing
      (BundleSizeChecker.getWebpackSizes (Sample.checker_host None)
         {| BundleSizeChecker.analyze := false;
            BundleSizeChecker.accurateBundles := false |}).
Proof.
  intros Hnothing.
  apply (Hnothing {| Js.class := Js.Error;
                     Js.message := BundleSizeChecker.no_valid_configuration |}).
  reflexivity.
Qed.

(** C4 as stated fails: the run on the sample host writes the collected
    sizes as JSON to /repo/size-snapshot.json. *)
Lemma snapshot_run_writes_a_file :
  ¬ writes_nothing
      (Js.effects
         (BundleSizeChecker.run (Sample.checker_host Sample.valid_config)
            Sample.default_argv)).
Proof.
  intros Hnothing.
  assert (Hwrite :
    BundleSizeChecker.is_file_write
      (BundleSizeChecker.FseWriteJSON (entry := string)
         "/repo/size-snapshot.json"
         (Js.Object_fromEntries [("@mui/material", 100); ("@mui/joy", 101)]) 2)
    = false); [|discriminate].
  apply Hnothing. vm_compute. do 6 right. left.
Qed.

(** C4 on the sample host. *)
Lemma run_writes_snapshot_sample :
  let h := Sample.checker_host Sample.valid_config in
  let a := Sample.default_argv in
  (BundleSizeChecker.loaded_config h
   = Some {| BundleSizeChecker.entrypoints :=
               BundleSizeChecker.ep_array Sample.entrypoints_with_duplicate |}
   ∧ Sample.entrypoints_with_duplicate ≠ [])
  ∧ BundleSizeChecker.run h a
    = ([BundleSizeChecker.NewPiscina "file:///repo/worker.js" 8;
        BundleSizeChecker.FseEmptyDir "/repo/build";
        BundleSizeChecker.LoadConfig "/repo";
        BundleSizeChecker.WorkerRun
          {| BundleSizeChecker.task_entry := "@mui/material";
             BundleSizeChecker.task_webpackEnvironment :=
               {| BundleSizeChecker.analyze := false;
                  BundleSizeChecker.accurateBundles := false |};
             BundleSizeChecker.task_index := 0;
             BundleSizeChecker.task_total := 2 |};
        BundleSizeChecker.WorkerRun
          {| BundleSizeChecker.task_entry := "@mui/joy";
             BundleSizeChecker.task_webpackEnvironment :=
               {| BundleSizeChecker.analyze := false;
                  BundleSizeChecker.accurateBundles := false |};
             BundleSizeChecker.task_index := 1;
             BundleSizeChecker.task_total := 2 |};
        BundleSizeChecker.FseMkdirp "dirname(/repo/size-snapshot.json)";
        BundleSizeChecker.FseWriteJSON "/repo/size-snapshot.json"
          (Js.Object_fromEntries [("@mui/material", 100); ("@mui/joy", 101)]) 2;
        BundleSizeChecker.ConsoleLog
          "Bundle size snapshot written to /repo/size-snapshot.json"],
       Js.Normal tt).
Proof.
  intros h a. split.
  - split; [reflexivity|discriminate].
  - assert (Hne : Sample.entrypoints_with_duplicate ≠ []) by discriminate.
    exact (run_writes_snapshot h a Sample.entrypoints_with_duplicate
             eq_refl Hne).
Defined.

(** The build of the bundle 'stable' on a package.json without a
    dependencies object. *)
Lemma run_TypeError_without_dependencies_sample :
  let h := Sample.build_host None in
  let a := Sample.build_argv "stable" in
  (BuildScript.bundle a ∈ BuildScript.validBundles
   ∧ BuildScript.dependencies (BuildScript.packageJson h) = None)
  ∧ BuildScript.run h a
    = ([BuildScript.ReadFile
          (Node.resolve (BuildScript.path h) ["./package.json"]) "utf8"],
       Js.Throw
         {| Js.class := Js.TypeError;
            Js.message := BuildScript.cannot_read_undefined "@babel/runtime" |})
  ∧ throws_TypeError (BuildScript.run h a).
Proof.
  intros h a.
  assert (Hb : BuildScript.bundle a ∈ BuildScript.validBundles).
  { unfold BuildScript.validBundles. do 2 right. left. }
  split; [split; [exact Hb|reflexivity]|].
  exact (run_TypeError_without_dependencies h a Hb eq_refl).
Defined.

(** So a [TypeError] does not tell an unrecognized bundle: here the
    bundle is 'stable'. *)
Lemma run_TypeError_with_valid_bundle :
  ¬ (throws_TypeError
       (BuildScript.run (Sample.build_host None) (Sample.build_argv "stable"))
     ↔ "stable" ∉ BuildScript.validBundles).
Proof.
  intros [Honly _].
  assert (Hin : "stable" ∈ BuildScript.validBundles).
  { unfold BuildScript.validBundles. do 2 right. left. }
  apply Honly; [|exact Hin].
  eexists. reflexivity.
Qed.

End SampleRuns.

(** ** The Snackbar timer against its test file *)

Section SnackbarReplay.
Import Snackbar SnackbarTest.
Variable default_resume : N -> N.

Example test_clicking_away :
  args_of handleClose <$> clicking_away default_resume
  = [[(dom_event 7, clickaway)]].
Proof. reflexivity. Qed.

Example test_pressing_Escape :
  args_of handleClose <$> pressing_Escape default_resume
  = [[(dom_event 9, escapeKeyDown)]].
Proof. reflexivity. Qed.

Example test_timer_is_done :
  args_of handleClose <$> timer_is_done default_resume
  = [[]; [(null_event, timeout)]].
Proof. reflexivity. Qed.

Example test_prop_changes :
  (fun s => (callCount handleClose1 s, callCount handleClose2 s))
    <$> prop_changes default_resume
  = [(0, 1)%nat].
Proof. reflexivity. Qed.

Example test_autoHideDuration_is_reset :
  callCount handleClose <$> autoHideDuration_is_reset default_resume
  = [0; 0]%nat.
Proof. reflexivity. Qed.

Example test_autoHideDuration_is_undefined :
  callCount handleClose <$> autoHideDuration_is default_resume undefined
  = [0; 0]%nat.
Proof. reflexivity. Qed.

Example test_autoHideDuration_is_null :
  callCount handleClose <$> autoHideDuration_is default_resume null
  = [0; 0]%nat.
Proof. reflexivity. Qed.

Example test_when_closed :
  callCount handleClose <$> when_closed default_resume = [0; 0]%nat.
Proof. reflexivity. Qed.

Example test_not_timeout_after_user_interaction k :
  callCount handleClose <$> after_user_interaction default_resume k 2000
  = [0; 0; 0]%nat.
Proof. destruct k; reflexivity. Qed.

Example test_timer_done_after_user_interaction k :
  args_of handleClose
    <$> after_user_interaction default_resume k resumeHideDuration_3e3
  = [[]; []; [(null_event, timeout)]].
Proof. destruct k; reflexivity. Qed.

Example test_immediately_when_0 k :
  args_of handleClose <$> immediately_when_0 default_resume k
  = [[]; [(null_event, timeout)]].
Proof. destruct k; reflexivity. Qed.

Example test_window_lost_focus_disabled :
  args_of handleClose <$> window_lost_focus default_resume true
  = [[]; [(null_event, timeout)]; [(null_event, timeout)];
     [(null_event, timeout)]].
Proof. reflexivity. Qed.

(** The two scenarios that resume without a [resumeHideDuration] pass as
    soon as the default delay for 2000 ms is at most 2000 ms. *)
Hypothesis default_resume_2e3 : default_resume 2000 <= 2000.

Lemma tick_2e3_after_default_resume p :
  onClose p = Some handleClose ->
  args_of handleClose
    (run default_resume [TickAsync 2000]
       {| now := 2000; current := p;
          timerAutoHide := Some (2000 + default_resume 2000); calls := [] |})
  = [(null_event, timeout)].
Proof.
  intros Hp.
  assert (Hdue : (2000 + default_resume 2000 <=? 4000) = true)
    by (apply N.leb_le; lia).
  change (run default_resume [TickAsync 2000] ?s) with (tickAsync 2000 s).
  unfold tickAsync. cbn [timerAutoHide now].
  change (2000 + 2000) with 4000. rewrite Hdue.
  unfold Snackbar.handleClose. cbn [current with_now clear with_timer].
  rewrite Hp. reflexivity.
Qed.

Example test_interrupt_the_timer k :
  args_of handleClose <$> interrupt_the_timer default_resume k
  = [[]; []; [(null_event, timeout)]].
Proof.
  unfold interrupt_the_timer. cbn [checkpoints].
  assert (Hleft :
    run default_resume
      [TickAsync (autoHideDuration_2e3 / 2); enter k;
       TickAsync (autoHideDuration_2e3 / 2); leave k]
      (render default_resume open_with_timer)
    = {| now := 2000; current := open_with_timer;
         timerAutoHide := Some (2000 + default_resume 2000); calls := [] |})
    by (destruct k; reflexivity).
  cbv zeta. rewrite Hleft, !fmap_cons.
  rewrite tick_2e3_after_default_resume by reflexivity. reflexivity.
Qed.

Example test_window_lost_focus :
  args_of handleClose <$> window_lost_focus default_resume false
  = [[]; []; []; [(null_event, timeout)]].
Proof.
  unfold window_lost_focus. cbn [checkpoints].
  assert (Hfocus :
    run default_resume [WindowFocus]
      (run default_resume [TickAsync autoHideDuration_2e3]
         (run default_resume [WindowBlur]
            (render default_resume
               (set_disableWindowBlurListener false open_with_timer))))
    = {| now := 2000;
         current := set_disableWindowBlurListener false open_with_timer;
         timerAutoHide := Some (2000 + default_resume 2000); calls := [] |})
    by reflexivity.
  cbv zeta. rewrite Hfocus, !fmap_cons.
  rewrite tick_2e3_after_default_resume by reflexivity. reflexivity.
Qed.

End SnackbarReplay.

(** ** The Snackbar timer in general *)

Section SnackbarFacts.
Import Snackbar.
Variable default_resume : N -> N.

Local Abbreviation run := (Snackbar.run default_resume).
Local Abbreviation step := (Snackbar.step default_resume).


Lemma ticks_cons n ns s :
  run (ticks (n :: ns)) s = run (ticks ns) (tickAsync n s).
Proof. reflexivity. Qed.

(** Without a pending timeout, time only moves the clock. *)
Lemma ticks_idle ns s :
  timerAutoHide s = None ->
  run (ticks ns) s = with_now (now s + elapsed ns) s.
Proof.
  revert s. induction ns as [|n ns IH]; intros s Hs.
  - destruct s. unfold with_now. simpl. by rewrite N.add_0_r.
  - rewrite ticks_cons. unfold tickAsync at 1. rewrite Hs.
    rewrite IH by done. unfold with_now. simpl. f_equal. lia.
Qed.

(** With a pending timeout and a handler, the handler is called once, by
    the first tick that reaches the due time. *)
Lemma ticks_armed ns s due h :
  timerAutoHide s = Some due ->
  onClose (current s) = Some h ->
  run (ticks ns) s
  = if fired_by due (now s) ns
    then record_call (timeout_call h) (with_now (now s + elapsed ns) (clear s))
    else with_now (now s + elapsed ns) s.
Proof.
  revert s. induction ns as [|n ns IH]; intros s Hdue Hh.
  - destruct s. unfold with_now. simpl. by rewrite N.add_0_r.
  - rewrite ticks_cons. unfold tickAsync at 1. rewrite Hdue.
    destruct (N.leb_spec due (now s + n)) as [Hle|Hgt].
    + unfold handleClose. cbn [current with_now clear with_timer]. rewrite Hh.
      rewrite ticks_idle by done.
      assert (Hfired : fired_by due (now s) (n :: ns) = true).
      { apply N.leb_le. simpl. lia. }
      rewrite Hfired. unfold record_call, with_now, clear, with_timer,
        timeout_call. simpl. f_equal. lia.
    + rewrite IH by done.
      assert (Hsame :
        fired_by due (now (with_now (now s + n) s)) ns
        = fired_by due (now s) (n :: ns)).
      { destruct ns as [|m ns]; simpl.
        - symmetry. apply N.leb_gt. lia.
        - f_equal. lia. }
      rewrite Hsame. destruct (fired_by due (now s) (n :: ns));
        unfold record_call, with_now, clear, with_timer; simpl; f_equal; lia.
Qed.

Lemma mount_open t0 p d h :
  open p = true -> autoHideDuration p = number d -> onClose p = Some h ->
  mount t0 p
  = {| now := t0; current := p; timerAutoHide := Some (t0 + d); calls := [] |}.
Proof.
  intros Ho Hd Hh. unfold mount, auto_hide_effect, setAutoHideTimer.
  cbn [current now]. by rewrite Ho, Hd, Hh.
Qed.

Lemma open_after_mount t0 p d h :
  open p = true -> autoHideDuration p = number d -> onClose p = Some h ->
  setProps p (mount t0 (set_open false p))
  = {| now := t0; current := p; timerAutoHide := Some (t0 + d); calls := [] |}.
Proof.
  intros Ho Hd Hh.
  assert (Hclosed :
    mount t0 (set_open false p)
    = {| now := t0; current := set_open false p; timerAutoHide := None;
         calls := [] |}) by reflexivity.
  rewrite Hclosed. unfold setProps.
  cbn [current with_props set_open open now timerAutoHide calls].
  rewrite Ho. cbn [Bool.eqb andb].
  unfold auto_hide_effect, clear, with_timer, setAutoHideTimer, with_props.
  cbn [current now timerAutoHide calls]. by rewrite Ho, Hd, Hh.
Qed.

Lemma fired_by_from_now t d ns :
  ns ≠ [] -> fired_by (t + d) t ns = negb (elapsed ns <? d).
Proof.
  destruct ns as [|n ns]; [done|]. intros _. unfold fired_by.
  destruct (N.ltb_spec (elapsed (n :: ns)) d); simpl negb.
  - apply N.leb_gt. lia.
  - apply N.leb_le. lia.
Qed.


(** The calls recorded while only time passes over an armed timer. *)
Lemma calls_ticks_armed ns t p d h cs :
  onClose p = Some h -> ns ≠ [] ->
  calls (run (ticks ns)
           {| now := t; current := p; timerAutoHide := Some (t + d);
              calls := cs |})
  = cs ++ (if elapsed ns <? d then [] else [timeout_call h]).
Proof.
  intros Hh Hne. rewrite (ticks_armed _ _ (t + d) h) by done.
  cbn [now]. rewrite fired_by_from_now by done.
  destruct (elapsed ns <? d); simpl; [by rewrite app_nil_r|done].
Qed.

(** C1: with [open], a numeric [autoHideDuration] and an [onClose]
    handler, time alone makes [onClose] called with [null, 'timeout']
    exactly once: not while less than [autoHideDuration] ms have elapsed,
    once when they have, and not again however long the snackbar stays
    open afterwards. It holds whether the snackbar is mounted open or is
    opened after mounting. *)
Theorem onClose_once_after_autoHideDuration t0 p d h ns :
  open p = true -> autoHideDuration p = number d -> onClose p = Some h ->
  ns ≠ [] ->
  calls (run (ticks ns) (mount t0 p))
  = (if elapsed ns <? d then [] else [timeout_call h])
  ∧ calls (run (SetProps p :: ticks ns) (mount t0 (set_open false p)))
    = (if elapsed ns <? d then [] else [timeout_call h]).
Proof.
  intros Ho Hd Hh Hne. split.
  - rewrite (mount_open t0 p d h) by done.
    by rewrite (calls_ticks_armed ns t0 p d h).
  - change (run (SetProps p :: ticks ns) ?s)
      with (run (ticks ns) (setProps p s)).
    rewrite (open_after_mount t0 p d h) by done.
    by rewrite (calls_ticks_armed ns t0 p d h).
Qed.







Lemma timeout_calls_record c s :
  arg_reason c ≠ timeout -> timeout_calls (record_call c s) = timeout_calls s.
Proof.
  intros Hc. unfold timeout_calls, record_call. cbn [calls].
  rewrite filter_app, filter_cons_False by done. by rewrite app_nil_r.
Qed.

(** Without a duration and without a pending timeout, no event other
    than a render with a numeric [autoHideDuration] arms the timer. *)
Lemma no_duration_invariant evs s :
  timerAutoHide s = None ->
  is_nullish (autoHideDuration (current s)) = true ->
  forallb keeps_no_duration evs = true ->
  timerAutoHide (run evs s) = None
  ∧ is_nullish (autoHideDuration (current (run evs s))) = true
  ∧ timeout_calls (run evs s) = timeout_calls s.
Proof.
  revert s. induction evs as [|ev evs IH]; intros s Hs Hnull Hevs; [done|].
  cbn [forallb] in Hevs. apply andb_prop in Hevs as [Hev Hevs].
  change (run (ev :: evs) s) with (run evs (step s ev)).
  assert (Hresume : handleResume default_resume s = s).
  { unfold handleResume. by destruct (autoHideDuration (current s)). }
  assert (Hclose : ∀ e r, r ≠ timeout ->
    timerAutoHide (handleClose e r s) = None
    ∧ is_nullish (autoHideDuration (current (handleClose e r s))) = true
    ∧ timeout_calls (handleClose e r s) = timeout_calls s).
  { intros e r Hr. unfold handleClose. destruct (onClose (current s)); [|done].
    split_and!; [done|done|]. by apply timeout_calls_record. }
  assert (Hstep : timerAutoHide (step s ev) = None
                  ∧ is_nullish (autoHideDuration (current (step s ev))) = true
                  ∧ timeout_calls (step s ev) = timeout_calls s).
  { destruct ev; cbn [Snackbar.step keeps_no_duration] in *.
    - unfold setProps.
      destruct (Bool.eqb _ _ && duration_eqb _ _); [done|].
      unfold auto_hide_effect, setAutoHideTimer, clear, with_timer, with_props.
      cbn [current now timerAutoHide calls].
      destruct (open p); [|done].
      destruct (autoHideDuration p) eqn:Hp; [| |discriminate];
        destruct (onClose p); simpl; rewrite ?Hp; done.
    - unfold tickAsync. by rewrite Hs.
    - done.
    - by rewrite Hresume.
    - done.
    - by rewrite Hresume.
    - by destruct (window_listening s).
    - rewrite Hresume. by destruct (window_listening s).
    - destruct (open (current s)); [by apply Hclose|done].
    - destruct (open (current s)); [by apply Hclose|done]. }
  destruct Hstep as (Htimer & Hnull' & Hcalls).
  destruct (IH _ Htimer Hnull' Hevs) as (? & ? & ?).
  split_and!; [done|done|congruence].
Qed.

(** C10: if [autoHideDuration] is [undefined] or [null], [onClose] is
    never called with reason 'timeout', whatever time elapses and whatever
    the user does, as long as no render gives [autoHideDuration] a number;
    and a render that sets [autoHideDuration] to [undefined] while a
    numeric one was in force drops the pending timeout, after which no
    further 'timeout' call is made. *)
Theorem no_timeout_without_autoHideDuration t0 p s d evs :
  is_nullish (autoHideDuration p) = true ->
  autoHideDuration (current s) = number d ->
  forallb keeps_no_duration evs = true ->
  timeout_calls (run evs (mount t0 p)) = []
  ∧ timerAutoHide (setProps (set_autoHideDuration undefined (current s)) s)
    = None
  ∧ timeout_calls
      (run (SetProps (set_autoHideDuration undefined (current s)) :: evs) s)
    = timeout_calls s.
Proof.
  intros Hnull Hd Hevs.
  assert (Hmount : mount t0 p
    = {| now := t0; current := p; timerAutoHide := None; calls := [] |}).
  { unfold mount, auto_hide_effect, setAutoHideTimer. cbn [current].
    destruct (open p); [|done].
    destruct (onClose p), (autoHideDuration p); done. }
  assert (Hreset :
    setProps (set_autoHideDuration undefined (current s)) s
    = {| now := now s;
         current := set_autoHideDuration undefined (current s);
         timerAutoHide := None; calls := calls s |}).
  { unfold setProps. cbn [set_autoHideDuration open autoHideDuration].
    rewrite Hd. cbn [duration_eqb]. rewrite andb_false_r.
    unfold auto_hide_effect, setAutoHideTimer, clear, with_timer, with_props.
    cbn [current now timerAutoHide calls set_autoHideDuration open onClose
         autoHideDuration].
    destruct (open (current s)); [|done].
    by destruct (onClose (current s)). }
  split_and!.
  - rewrite Hmount.
    apply (no_duration_invariant evs
             {| now := t0; current := p; timerAutoHide := None; calls := [] |});
      done.
  - by rewrite Hreset.
  - change (run (SetProps ?q :: evs) s) with (run evs (setProps q s)).
    rewrite Hreset.
    apply (no_duration_invariant evs
             {| now := now s;
                current := set_autoHideDuration undefined (current s);
                timerAutoHide := None; calls := calls s |});
      done.
Qed.

End SnackbarFacts.

(** ** The Ripple exit timer *)

Section RippleFacts.
Import Ripple.

Example test_trigger_a_timer :
  callCount RippleTest.handleExited <$> RippleTest.trigger_a_timer
  = [0; 1]%nat.
Proof. reflexivity. Qed.

Example test_defuse_the_timer :
  callCount RippleTest.handleExited RippleTest.defuse_the_timer = 0%nat.
Proof. reflexivity. Qed.

Lemma ripple_run_app evs1 evs2 s :
  run (evs1 ++ evs2) s = run evs2 (run evs1 s).
Proof. apply foldl_app. Qed.

Lemma ripple_ticks_idle ns s :
  exitTimer s = None -> run (ticks ns) s = at_time (now s + elapsed ns) s.
Proof.
  revert s. induction ns as [|n ns IH]; intros s Hs.
  - destruct s. unfold at_time. simpl in *. by rewrite N.add_0_r, Hs.
  - change (run (ticks (n :: ns)) s) with (run (ticks ns) (tickAsync n s)).
    unfold tickAsync at 1. rewrite Hs. rewrite IH by done.
    unfold at_time. simpl. rewrite Hs. f_equal. lia.
Qed.

Lemma ripple_ticks_armed ns s due h :
  exitTimer s = Some (due, h) ->
  run (ticks ns) s
  = match ns with
    | [] => s
    | _ :: _ =>
        if due <=? now s + elapsed ns
        then {| now := now s + elapsed ns; current := current s;
                mounted := mounted s; exitTimer := None;
                exited := exited s ++ [h] |}
        else at_time (now s + elapsed ns) s
    end.
Proof.
  revert s. induction ns as [|n ns IH]; intros s Hdue; [done|].
  change (run (ticks (n :: ns)) s) with (run (ticks ns) (tickAsync n s)).
  unfold tickAsync at 1. rewrite Hdue.
  destruct (N.leb_spec due (now s + n)) as [Hle|Hgt].
  - rewrite ripple_ticks_idle by done.
    assert (Hfired : (due <=? now s + elapsed (n :: ns)) = true)
      by (apply N.leb_le; simpl; lia).
    rewrite Hfired. unfold at_time. simpl. f_equal. lia.
  - rewrite <- Hdue. rewrite IH by (simpl; by rewrite Hdue).
    destruct ns as [|m ns].
    + assert (Hnot : (due <=? now s + elapsed [n]) = false)
        by (apply N.leb_gt; simpl; lia).
      rewrite Hnot. unfold at_time. simpl. f_equal. lia.
    + cbn [now]. 
      replace (now s + n + elapsed (m :: ns)) with (now s + elapsed (n :: m :: ns))
        by (simpl; lia).
      destruct (due <=? now s + elapsed (n :: m :: ns)); unfold at_time; simpl;
        by rewrite ?Hdue.
Qed.

(** After unmounting nothing is ever called. *)
Lemma unmounted_stays evs s :
  mounted s = false -> exitTimer s = None ->
  exited (run evs s) = exited s.
Proof.
  revert s. induction evs as [|ev evs IH]; intros s Hm Ht; [done|].
  change (run (ev :: evs) s) with (run evs (step s ev)).
  assert (Hstep : mounted (step s ev) = false ∧ exitTimer (step s ev) = None
                  ∧ exited (step s ev) = exited s).
  { destruct ev; cbn [step].
    - unfold setIn. by rewrite Hm.
    - unfold tickAsync. by rewrite Ht.
    - done. }
  destruct Hstep as (? & ? & ?). rewrite IH by done. done.
Qed.

(** The state right after the [in] prop goes from true to false. *)
Lemma state_after_leaving t0 t h before :
  run (ticks before ++ [SetIn false])
    (mount t0 {| in_ := true; timeout := t; onExited := Some h |})
  = {| now := t0 + elapsed before;
       current := {| in_ := false; timeout := t; onExited := Some h |};
       mounted := true;
       exitTimer := Some (t0 + elapsed before + t, h);
       exited := [] |}.
Proof.
  rewrite ripple_run_app, ripple_ticks_idle by done. reflexivity.
Qed.

(** C7: for a mounted Ripple with a numeric timeout and an [onExited]
    handler, once [in] goes from true to false, time alone makes
    [onExited] called exactly once: not while less than [timeout] ms have
    elapsed since the transition, once when they have; and if the Ripple
    is unmounted before that, [onExited] is never called, whatever happens
    afterwards. *)
Theorem onExited_once_after_timeout t0 t h before ns early rest :
  ns ≠ [] -> elapsed early < t ->
  let rendered := mount t0 {| in_ := true; timeout := t; onExited := Some h |} in
  exited (run (ticks before ++ [SetIn false] ++ ticks ns) rendered)
  = (if elapsed ns <? t then [] else [h])
  ∧ exited (run (ticks before ++ [SetIn false] ++ ticks early ++ [Unmount]
                   ++ rest) rendered)
    = [].
Proof.
  intros Hne Hearly rendered. subst rendered. split.
  - rewrite app_assoc, ripple_run_app, state_after_leaving.
    rewrite (ripple_ticks_armed ns _ _ h) by done.
    destruct ns as [|n ns]; [done|]. cbn [now].
    destruct (N.ltb_spec (elapsed (n :: ns)) t) as [Hlt|Hge].
    + assert (Hnot : (t0 + elapsed before + t
                      <=? t0 + elapsed before + elapsed (n :: ns)) = false)
        by (apply N.leb_gt; lia).
      by rewrite Hnot.
    + assert (Hfired : (t0 + elapsed before + t
                        <=? t0 + elapsed before + elapsed (n :: ns)) = true)
        by (apply N.leb_le; lia).
      by rewrite Hfired.
  - rewrite app_assoc, ripple_run_app, state_after_leaving.
    rewrite !ripple_run_app.
    rewrite (ripple_ticks_armed early _ _ h) by done.
    assert (Hquiet : ∀ s, exited s = [] ->
              exited (run rest (run [Unmount] s)) = []).
    { intros s Hs. by rewrite unmounted_stays. }
    destruct early as [|n early]; [by apply Hquiet|]. cbn [now].
    assert (Hnot : (t0 + elapsed before + t
                    <=? t0 + elapsed before + elapsed (n :: early)) = false)
      by (apply N.leb_gt; lia).
    rewrite Hnot. by apply Hquiet.
Qed.

End RippleFacts.

(** ** The timers on concrete scenarios *)

Section TimerSamples.

(** C1 on the props of the test, with ticks of 1999, 1 and 10000 ms. *)
Lemma onClose_once_after_autoHideDuration_sample :
  let p := SnackbarTest.open_with_timer in
  (Snackbar.open p = true
   ∧ Snackbar.autoHideDuration p = Snackbar.number 2000
   ∧ Snackbar.onClose p = Some SnackbarTest.handleClose
   ∧ [1999; 1; 10000] ≠ [])
  ∧ Snackbar.calls
      (Snackbar.run Sample.half (Snackbar.ticks [1999; 1; 10000])
         (Snackbar.mount 0 p))
    = [Snackbar.timeout_call SnackbarTest.handleClose]
  ∧ Snackbar.calls
      (Snackbar.run Sample.half
         (Snackbar.SetProps p :: Snackbar.ticks [1999; 1; 10000])
         (Snackbar.mount 0 (Snackbar.set_open false p)))
    = [Snackbar.timeout_call SnackbarTest.handleClose].
Proof.
  intros p. split.
  - split_and!; [reflexivity|reflexivity|reflexivity|discriminate].
  - apply (onClose_once_after_autoHideDuration Sample.half 0 p 2000
             SnackbarTest.handleClose [1999; 1; 10000]);
      [reflexivity|reflexivity|reflexivity|discriminate].
Defined.




(** C10 on a snackbar without a duration, and on one whose duration is
    taken away after 1000 ms. *)
Lemma no_timeout_without_autoHideDuration_sample :
  let p := Snackbar.set_autoHideDuration Snackbar.null
             SnackbarTest.open_with_timer in
  let s :=
    Snackbar.run Sample.half [Snackbar.TickAsync 1000]
      (Snackbar.mount 0 SnackbarTest.open_with_timer) in
  let evs :=
    [Snackbar.TickAsync 3000; Snackbar.MouseEnter; Snackbar.MouseLeave;
     Snackbar.TickAsync 5000; Snackbar.ClickAway 3%nat] in
  (Snackbar.is_nullish (Snackbar.autoHideDuration p) = true
   ∧ Snackbar.autoHideDuration (Snackbar.current s) = Snackbar.number 2000
   ∧ forallb Snackbar.keeps_no_duration evs = true)
  ∧ Snackbar.timeout_calls (Snackbar.run Sample.half evs (Snackbar.mount 0 p))
    = []
  ∧ Snackbar.timerAutoHide
      (Snackbar.setProps
         (Snackbar.set_autoHideDuration Snackbar.undefined (Snackbar.current s))
         s)
    = None
  ∧ Snackbar.timeout_calls
      (Snackbar.run Sample.half
         (Snackbar.SetProps
            (Snackbar.set_autoHideDuration Snackbar.undefined
               (Snackbar.current s)) :: evs) s)
    = Snackbar.timeout_calls s.
Proof.
  intros p s evs. split.
  - split_and!; reflexivity.
  - apply (no_timeout_without_autoHideDuration Sample.half 0 p s 2000 evs);
      reflexivity.
Defined.

(** C7 on the Ripple of the test, timeout 550 ms. *)
Lemma onExited_once_after_timeout_sample :
  let rendered :=
    Ripple.mount 0 {| Ripple.in_ := true; Ripple.timeout := 550;
                      Ripple.onExited := Some RippleTest.handleExited |} in
  let rest :=
    [Ripple.TickAsync 550; Ripple.SetIn true; Ripple.SetIn false;
     Ripple.TickAsync 1000] in
  ([549; 1] ≠ [] ∧ Ripple.elapsed [549] < 550)
  ∧ Ripple.exited
      (Ripple.run
         (Ripple.ticks [10] ++ [Ripple.SetIn false] ++ Ripple.ticks [549; 1])
         rendered)
    = [RippleTest.handleExited]
  ∧ Ripple.exited
      (Ripple.run
         (Ripple.ticks [10] ++ [Ripple.SetIn false] ++ Ripple.ticks [549]
            ++ [Ripple.Unmount] ++ rest) rendered)
    = [].
Proof.
  intros rendered rest. split.
  - split; [discriminate|]. vm_compute. reflexivity.
  - apply (onExited_once_after_timeout 0 550 RippleTest.handleExited [10]
             [549; 1] [549] rest); [discriminate|].
    vm_compute. reflexivity.
Defined.

End TimerSamples.


(** * Further properties of the scripts *)

(** ** Entrypoints and the snapshot object *)

Section SetOrder.
Import ScriptProperties.
Context {A : Type} `{EqDecision A}.

Lemma fresh_after_equiv (s1 s2 l : list A) :
  (∀ z, z ∈ s1 ↔ z ∈ s2) -> fresh_after s1 l = fresh_after s2 l.
Proof.
  revert s1 s2. induction l as [|y l IH]; intros s1 s2 Heq; [done|].
  simpl. destruct (decide (y ∈ s1)) as [H1|H1], (decide (y ∈ s2)) as [H2|H2].
  - by apply IH.
  - by apply Heq in H1.
  - by apply Heq in H2.
  - f_equal. apply IH. intros z. rewrite !elem_of_cons, Heq. done.
Qed.

Lemma foldl_Set_add_fresh (l acc : list A) :
  foldl Js.Set_add acc l = acc ++ fresh_after acc l.
Proof.
  revert acc. induction l as [|y l IH]; intros acc; simpl.
  - by rewrite app_nil_r.
  - unfold Js.Set_add at 2. destruct (decide (y ∈ acc)) as [Hy|Hy]; [done|].
    rewrite IH, <- app_assoc. simpl. do 2 f_equal.
    apply fresh_after_equiv. intros z.
    rewrite elem_of_app, list_elem_of_singleton, elem_of_cons. tauto.
Qed.

Lemma fresh_after_cons_seen (x : A) (seen l : list A) :
  fresh_after (x :: seen) l = fresh_after seen (filter (fun y => y ≠ x) l).
Proof.
  revert seen. induction l as [|y l IH]; intros seen; [done|].
  simpl. destruct (decide (y = x)) as [->|Hyx].
  - rewrite filter_cons_False by (intros Hne; by apply Hne).
    rewrite decide_True by left. apply IH.
  - rewrite filter_cons_True by done. simpl.
    destruct (decide (y ∈ x :: seen)) as [Hin|Hin],
             (decide (y ∈ seen)) as [Hs|Hs].
    + apply IH.
    + apply elem_of_cons in Hin as [?|?]; done.
    + destruct Hin. by right.
    + f_equal. rewrite <- IH. apply fresh_after_equiv. intros z.
      rewrite !elem_of_cons. tauto.
Qed.

Lemma new_Set_cons (x : A) (l : list A) :
  Js.new_Set (x :: l) = x :: Js.new_Set (filter (fun y => y ≠ x) l).
Proof.
  unfold Js.new_Set. rewrite !foldl_Set_add_fresh. simpl.
  f_equal. apply fresh_after_cons_seen.
Qed.

Lemma foldl_Set_add_length (l acc : list A) :
  (length (foldl Js.Set_add acc l) ≤ length acc + length l)%nat.
Proof.
  revert acc. induction l as [|y l IH]; intros acc; simpl; [lia|].
  etrans; [apply IH|]. unfold Js.Set_add. case_decide; [lia|].
  rewrite length_app. simpl. lia.
Qed.

Lemma foldl_Set_add_full (l acc : list A) :
  NoDup acc ->
  length (foldl Js.Set_add acc l) = (length acc + length l)%nat ->
  NoDup (acc ++ l).
Proof.
  revert acc. induction l as [|y l IH]; intros acc Hacc Hlen.
  - by rewrite app_nil_r.
  - cbn [foldl length] in Hlen. destruct (decide (y ∈ acc)) as [Hy|Hy].
    + assert (Hadd : Js.Set_add acc y = acc)
        by (unfold Js.Set_add; by rewrite decide_True).
      rewrite Hadd in Hlen. pose proof (foldl_Set_add_length l acc). lia.
    + assert (Hadd : Js.Set_add acc y = acc ++ [y])
        by (unfold Js.Set_add; by rewrite decide_False).
      rewrite Hadd in Hlen. rewrite cons_middle, app_assoc.
      apply IH.
      * apply NoDup_app. split_and!; [done| |apply NoDup_singleton].
        intros z Hz Hzy. apply list_elem_of_singleton in Hzy. by subst.
      * rewrite Hlen, length_app. simpl. lia.
Qed.

Lemma new_Set_NoDup_id (l : list A) : NoDup l -> Js.new_Set l = l.
Proof.
  intros Hl. unfold Js.new_Set. rewrite foldl_Set_add_fresh. simpl.
  assert (Hgen : ∀ seen, (∀ z, z ∈ seen -> z ∉ l) -> fresh_after seen l = l).
  { induction Hl as [|y l Hy Hl IH]; intros seen Hseen; [done|].
    simpl. rewrite decide_False.
    - f_equal. apply IH. intros z [->|Hz]%elem_of_cons; [done|].
      intros Hzl. apply (Hseen z Hz). by right.
    - intros Hin. apply (Hseen y Hin). by left. }
  apply Hgen. intros z Hz. by apply elem_of_nil in Hz.
Qed.

End SetOrder.

Section SnapshotObject.
Context {V : Type}.
Implicit Types (kvs : list (string * V)) (k : string) (v : V).

Lemma Object_fromEntries_snoc kvs k v :
  Js.Object_fromEntries (kvs ++ [(k, v)]) = <[k := v]> (Js.Object_fromEntries kvs).
Proof. unfold Js.Object_fromEntries. by rewrite foldl_app. Qed.

(** X5: the object built from a list of pairs maps a key to the value of
    the last pair with that key, and has no entry for a key that no pair
    carries. *)
Theorem Object_fromEntries_last_wins kvs k :
  Js.Object_fromEntries kvs !! k
  = last (snd <$> filter (fun kv => kv.1 = k) kvs)
  ∧ (Js.Object_fromEntries kvs !! k = None ↔ k ∉ kvs.*1).
Proof.
  assert (Hlast : Js.Object_fromEntries kvs !! k
                  = last (snd <$> filter (fun kv => kv.1 = k) kvs)).
  { induction kvs as [|[k' v'] kvs IH] using rev_ind; [done|].
    rewrite Object_fromEntries_snoc, filter_app, fmap_app.
    destruct (decide (k' = k)) as [->|Hne].
    - rewrite lookup_insert_eq, filter_cons_True by done.
      simpl. by rewrite last_snoc.
    - rewrite lookup_insert_ne, filter_cons_False by done.
      simpl. by rewrite app_nil_r. }
  split; [done|]. rewrite Hlast, last_None. split.
  - intros Hnil%fmap_nil_inv Hin.
    apply list_elem_of_fmap in Hin as ([k' v'] & Hk & Hin).
    simpl in Hk. subst k.
    assert (Hf : (k', v') ∈ filter (fun kv => kv.1 = k') kvs)
      by (by apply list_elem_of_filter).
    rewrite Hnil in Hf. by apply elem_of_nil in Hf.
  - intros Hnot. by rewrite (filter_absent fst kvs k).
Qed.

(** X6: when the reported names are pairwise distinct, no report is lost:
    every reported pair can be read back from the object. *)
Theorem Object_fromEntries_keeps_distinct kvs k v :
  NoDup kvs.*1 -> (k, v) ∈ kvs -> Js.Object_fromEntries kvs !! k = Some v.
Proof.
  induction kvs as [|[k' v'] kvs IH] using rev_ind; intros Hnd Hin.
  - by apply elem_of_nil in Hin.
  - rewrite Object_fromEntries_snoc.
    rewrite fmap_app in Hnd. apply NoDup_app in Hnd as (Hnd & Hdisj & _).
    apply elem_of_app in Hin as [Hin|Hin].
    + assert (k ≠ k').
      { intros ->. apply (Hdisj k'); [|by left].
        by apply (list_elem_of_fmap_2 fst _ (k', v)). }
      rewrite lookup_insert_ne by done. by apply IH.
    + apply list_elem_of_singleton in Hin as [= -> ->].
      by rewrite lookup_insert_eq.
Qed.

End SnapshotObject.

Section SizeSnapshotMore.
Import BundleSizeChecker RunProperties.
Context {entry : Type} `{EqDecision entry} {size_info : Type}.
Implicit Types (h : host entry size_info) (we : webpack_environment).
Implicit Types (entries : list entry).

Lemma submitted_getWebpackSizes h we entries :
  loaded_config h = Some {| entrypoints := ep_array entries |} ->
  entries ≠ [] ->
  submitted (Js.effects (getWebpackSizes h we))
  = tasks_for we (Js.new_Set entries).
Proof.
  intros Hcfg Hne. rewrite (getWebpackSizes_valid h we entries Hcfg Hne).
  cbn [Js.effects fst]. unfold submitted. rewrite omap_app.
  change (omap _ (WorkerRun <$> ?ts)) with
    (submitted (size_info := size_info) (WorkerRun <$> ts)).
  by rewrite submitted_WorkerRun.
Qed.

Lemma run_valid h a entries :
  loaded_config h = Some {| entrypoints := ep_array entries |} ->
  entries ≠ [] ->
  ∃ ts data,
    run h a
    = (setup_effects h ++ (WorkerRun <$> ts)
         ++ [FseMkdirp (Node.dirname (path h) (snapshotDestPath h a));
             FseWriteJSON (snapshotDestPath h a) data 2;
             ConsoleLog ("Bundle size snapshot written to "
                           +:+ snapshotDestPath h a)],
       Js.Normal tt).
Proof.
  intros Hcfg Hne. unfold run.
  rewrite (getWebpackSizes_valid h _ entries Hcfg Hne).
  unfold Js.bind, Js.perform. simpl. eexists _, _. reflexivity.
Qed.

(** X1: the pool receives the entrypoints in the order of their first
    occurrence: the first configured entry is the first task, and the
    tasks after it are those of the rest of the list with that entry
    taken out. *)
Theorem getWebpackSizes_first_occurrence_order h we x l :
  loaded_config h = Some {| entrypoints := ep_array (x :: l) |} ->
  task_entry <$> submitted (Js.effects (getWebpackSizes h we))
  = x :: Js.new_Set (filter (fun y => y ≠ x) l).
Proof.
  intros Hcfg. rewrite (submitted_getWebpackSizes h we (x :: l)) by done.
  rewrite task_entry_tasks_for. apply new_Set_cons.
Qed.

(** X2: never more tasks than configured entrypoints; as many exactly
    when no entrypoint is repeated, and then task number i is for the
    i-th entrypoint. *)
Theorem getWebpackSizes_task_count h we entries :
  loaded_config h = Some {| entrypoints := ep_array entries |} ->
  entries ≠ [] ->
  let sent := submitted (Js.effects (getWebpackSizes h we)) in
  (length sent ≤ length entries)%nat
  ∧ (length sent = length entries ↔ NoDup entries)
  ∧ (NoDup entries -> task_entry <$> sent = entries).
Proof.
  intros Hcfg Hne sent.
  assert (Hsent : task_entry <$> sent = Js.new_Set entries).
  { subst sent. rewrite (submitted_getWebpackSizes h we entries) by done.
    apply task_entry_tasks_for. }
  assert (Hlen : length sent = length (Js.new_Set entries))
    by (by rewrite <- Hsent, length_fmap).
  split_and!.
  - rewrite Hlen. apply (foldl_Set_add_length entries []).
  - rewrite Hlen. split.
    + intros Heq. apply (foldl_Set_add_full entries []);
        [apply NoDup_nil_2|done].
    + intros Hnd. by rewrite new_Set_NoDup_id.
  - intros Hnd. by rewrite Hsent, new_Set_NoDup_id.
Qed.

(** X3: a rejected configuration is noticed only after the pool has been
    created and the build directory emptied: [run] then ends with the
    configuration error, having dispatched no task, created no output
    directory, written no snapshot and logged nothing. *)
Theorem run_rejected_after_emptying_build h a :
  ¬ valid_configuration (loaded_config h) ->
  run h a
  = ([NewPiscina (worker_url h) (N.min 8 (cpus_length h));
      FseEmptyDir (Node.join (path h) [rootDir h; "build"]);
      LoadConfig (rootDir h)],
     Js.Throw {| Js.class := Js.Error; Js.message := no_valid_configuration |}).
Proof.
  intros Hbad. unfold run. by rewrite getWebpackSizes_invalid.
Qed.

(** X4: a JSON snapshot is written only when the loaded configuration
    was accepted, and then only to the snapshot path, with two-space
    indentation. *)
Theorem run_writes_only_when_configured h a file data spaces :
  FseWriteJSON file data spaces ∈ Js.effects (run h a) ->
  valid_configuration (loaded_config h)
  ∧ file = snapshotDestPath h a ∧ spaces = 2.
Proof.
  assert (Hcases : valid_configuration (loaded_config h)
                   ∨ ¬ valid_configuration (loaded_config h)).
  { destruct (loaded_config h) as [[[| |[|e l]]]|];
      try (right; intros (? & ? & ?); discriminate).
    left. by exists e, l. }
  destruct Hcases as [Hok|Hbad].
  - intros Hin. split; [done|]. destruct Hok as (e & l & Hcfg).
    destruct (run_valid h a (e :: l) Hcfg ltac:(done)) as (ts & data' & Hrun).
    rewrite Hrun in Hin. cbn [Js.effects fst] in Hin.
    apply elem_of_app in Hin as [Hin|Hin];
      [|apply elem_of_app in Hin as [Hin|Hin]].
    + unfold setup_effects in Hin. rewrite !elem_of_cons in Hin.
      destruct Hin as [?|[?|[?|?%elem_of_nil]]]; done.
    + apply list_elem_of_fmap in Hin as (t & ? & _). done.
    + rewrite !elem_of_cons in Hin.
      destruct Hin as [?|[Heq|[?|?%elem_of_nil]]]; try done.
      by injection Heq as -> _ ->.
  - rewrite run_rejected_after_emptying_build by done.
    cbn [Js.effects fst]. rewrite !elem_of_cons.
    intros [?|[?|[?|?%elem_of_nil]]]; done.
Qed.

End SizeSnapshotMore.

(** ** The build script, further *)

Section AlwaysFacts.
Import ScriptProperties.
Context {E : Type} (P : E -> Prop).

Lemma always_ret {A} (a : A) : always (E := E) P (Js.ret a).
Proof. constructor. Qed.

Lemma always_throw {A} c msg : always (E := E) (A := A) P (Js.throw c msg).
Proof. constructor. Qed.

Lemma always_perform (x : E) : P x -> always P (Js.perform x).
Proof. intros Hx. by repeat constructor. Qed.

Lemma always_bind {A B} (m : Js.io E A) (k : A -> Js.io E B) :
  always P m -> (∀ a, always P (k a)) -> always P (Js.bind m k).
Proof.
  unfold always. intros Hm Hk. destruct m as [t [a|e]]; simpl in *; [|done].
  specialize (Hk a). destruct (k a) as [t2 r]. simpl in *.
  by apply Forall_app.
Qed.

Lemma always_Promise_all {A} (ms : list (Js.io E A)) :
  Forall (always P) ms -> always P (Js.Promise_all ms).
Proof.
  induction 1 as [|m ms Hm _ IH]; cbn [Js.Promise_all].
  - apply always_ret.
  - unfold always. cbn [Js.effects fst]. by apply Forall_app.
Qed.

Lemma effects_bind_perform {B} (x : E) (k : unit -> Js.io E B) :
  Js.effects (Js.bind (Js.perform x) k) = x :: Js.effects (k tt).
Proof. by rewrite bind_perform. Qed.

End AlwaysFacts.

Section BuildScriptMore.
Import BuildScript RunProperties ScriptProperties.
Implicit Types (h : host) (a : argv).

Ltac always_step :=
  first
    [ apply always_ret
    | apply always_throw
    | apply always_perform; cbn; try done
    | apply always_bind; [|intros ?]
    | apply always_Promise_all, Forall_fmap, Forall_true; intros ?;
      unfold write_target
    | progress unfold path_resolve2, read_babel_runtime
    | match goal with
      | |- always _ (if ?b then _ else _) => destruct b
      | |- always _ (match ?x with _ => _ end) => destruct x
      end ].

(** X7: when the bundle is valid but package.json declares no usable
    [@babel/runtime], reading package.json is the only thing [run] has done
    when it throws: no glob, no build, no subprocess. *)
Theorem run_stops_at_missing_babel_runtime h a deps :
  bundle a ∈ validBundles ->
  dependencies (packageJson h) = Some deps ->
  is_truthy_string (deps !! "@babel/runtime") = false ->
  run h a
  = ([ReadFile (Node.resolve (path h) ["./package.json"]) "utf8"],
     Js.Throw {| Js.class := Js.Error; Js.message := needs_babel_runtime |}).
Proof.
  intros Hb Hdeps Hfalsy.
  destruct (run_recognized_shape h a Hb) as (tail & _ & ->).
  unfold read_babel_runtime. rewrite Hdeps, bind_perform, bind_ret_l, Hfalsy.
  reflexivity.
Qed.

(** X8: one build tool per run. With the rollup option no subprocess is
    started; without it, rollup is neither run nor asked to write, and
    the source tree is not globbed for entry files. *)
Theorem run_one_build_tool h a :
  always (fun e => if rollup a then is_subprocess e = false
                   else is_rollup e = false)
         (run h a).
Proof.
  unfold run. destruct (rollup a); cbv beta iota zeta; repeat always_step.
Qed.

Lemma onwarn_directive w :
  onwarn w = false ↔ code w = Some "MODULE_LEVEL_DIRECTIVE".
Proof.
  unfold onwarn. rewrite negb_false_iff. apply bool_decide_eq_true.
Qed.

(** X9: unless the verbose option is exactly [true], [run] never calls
    [console.log], on any path; what a rollup build can still bring to
    the console goes through the [onwarn] it hands to rollup, which passes
    every warning on to rollup's default handler except those with code
    MODULE_LEVEL_DIRECTIVE. *)
Theorem run_silent_unless_verbose h a :
  verbose a ≠ Some true ->
  always (fun e => is_console e = false ∧ forwards_all_but_directive e)
         (run h a).
Proof.
  intros Hquiet. unfold run. rewrite (bool_decide_eq_false_2 _ Hquiet).
  cbv beta iota zeta. repeat always_step.
  all: try (split; [done|]; try done; apply onwarn_directive).
Qed.

Lemma env_get_app_r obj1 obj2 key v :
  env_get obj2 key = Some v -> env_get (obj1 ++ obj2) key = Some v.
Proof.
  intros Hv. induction obj1 as [|[k' v'] obj1 IH]; [done|].
  simpl. by rewrite IH.
Qed.

Lemma env_get_absent obj key : key ∉ obj.*1 -> env_get obj key = None.
Proof.
  intros Hnot. induction obj as [|[k' v'] obj IH]; [done|].
  apply not_elem_of_cons in Hnot as [Hk Hnot]. simpl in *.
  rewrite IH by done. by rewrite decide_False.
Qed.

(** X11: the subprocess gets [NODE_ENV] set to 'production' and
    [BABEL_ENV] set to the bundle, whatever the caller's own environment
    holds, as long as the version variables do not carry these names. *)
Theorem run_sets_build_environment h a :
  "NODE_ENV" ∉ (versionEnvVariables h).*1 ->
  "BABEL_ENV" ∉ (versionEnvVariables h).*1 ->
  always (fun e => exec_env_has "NODE_ENV" (EnvString "production") e
                   ∧ exec_env_has "BABEL_ENV" (EnvString (bundle a)) e)
         (run h a).
Proof.
  intros Hnode Hbabel. unfold run. cbv beta iota zeta.
  repeat always_step.
  all: split; apply env_get_app_r; cbn [env_get];
    rewrite env_get_absent by done; reflexivity.
Qed.

Lemma bundle_table_get {V} (x y z : V) b :
  b ∈ validBundles ->
  Js.object_get [("node", x); ("modern", y); ("stable", z)] b
  = Some (if decide (b = "node") then x
          else if decide (b = "modern") then y else z).
Proof.
  unfold validBundles. rewrite !elem_of_cons.
  intros [->|[->|[->|?%elem_of_nil]]]; done.
Qed.

Lemma has_babel_runtime_truthy h :
  has_babel_runtime h ->
  ∃ deps v, dependencies (packageJson h) = Some deps
            ∧ deps !! "@babel/runtime" = Some v
            ∧ is_truthy_string (Some v) = true.
Proof.
  intros (deps & v & Hdeps & Hv & Hne). exists deps, v.
  split_and!; [done|done|]. unfold is_truthy_string.
  by rewrite bool_decide_eq_false_2.
Qed.

Lemma bind_assoc {E A B C} (m : Js.io E A) (f : A -> Js.io E B)
    (k : B -> Js.io E C) :
  Js.bind (Js.bind m f) k = Js.bind m (fun x => Js.bind (f x) k).
Proof.
  destruct m as [t [x|e]]; [|done]. simpl.
  destruct (f x) as [t2 [y|e]]; simpl; [|done].
  destruct (k y) as [t3 r]. by rewrite app_assoc.
Qed.

Ltac walk :=
  repeat first
    [ rewrite bind_ret_l
    | rewrite effects_bind_perform
    | rewrite outcome_bind_perform
    | progress unfold exec
    | rewrite bind_assoc ].

(** X10: in a babel build the subprocess is always started, and [run]
    completes normally exactly when it exits with code 0 and has written
    nothing to stderr. A non-zero exit makes [run] fail with the Error of
    [exec]; after a zero exit, any stderr output makes [run] throw an
    [Error] that quotes the command and that output. *)
Theorem run_babel_outcome h a :
  bundle a ∈ validBundles -> has_babel_runtime h -> rollup a = false ->
  ∃ command env,
    Exec command env ∈ Js.effects (run h a)
    ∧ Js.outcome (run h a)
      = (if decide (exec_exit_code h = 0)
         then (if decide (exec_stderr h = EmptyString) then Js.Normal tt
               else Js.Throw
                      {| Js.class := Js.Error;
                         Js.message := "'" +:+ command +:+ "' failed with "
                                         +:+ newline +:+ exec_stderr h |})
         else Js.Throw
                {| Js.class := Js.Error;
                   Js.message := command_failed command (exec_stderr h) |}).
Proof.
  intros Hb (deps & v & Hdeps & Hv & Ht)%has_babel_runtime_truthy Hr.
  unfold run, includes. rewrite bool_decide_eq_true_2 by done.
  rewrite Hr. cbn [negb]. unfold read_babel_runtime. rewrite Hdeps.
  cbv beta iota zeta. walk. rewrite Hv, Ht. cbn [negb]. walk.
  rewrite bundle_table_get by done. unfold path_resolve2. walk.
  destruct (bool_decide (verbose a = Some true)); walk.
  all: destruct (decide (exec_exit_code h = 0)) as [Hexit|Hexit].
  all: rewrite ?(proj2 (N.eqb_eq _ _) Hexit), ?(proj2 (N.eqb_neq _ _) Hexit).
  all: cbn [negb]; walk.
  all: destruct (decide (exec_stderr h = EmptyString)) as [Herr|Herr].
  all: rewrite ?(bool_decide_eq_true_2 _ Herr), ?(bool_decide_eq_false_2 _ Herr).
  all: cbn [negb fst snd]; walk.
  all: eexists _, _; split; [repeat first [by left|right]|]; reflexivity.
Qed.

Lemma only_index_files_filter h :
  length (filter (fun file =>
                    Node.basename (path h) file (Node.extname (path h) file)
                    ≠ "index") (glob_sync_result h)) = 0%nat
  ↔ only_index_files h.
Proof.
  unfold only_index_files. induction (glob_sync_result h) as [|f l IH].
  - split; [constructor|done].
  - rewrite Forall_cons, <- IH.
    destruct (decide (Node.basename (path h) f (Node.extname (path h) f)
                      = "index")) as [Hf|Hf].
    + rewrite filter_cons_False by (intros Hne; by apply Hne). tauto.
    + rewrite filter_cons_True by done. simpl. split; [done|tauto].
Qed.

Lemma write_target_choice h out packages t :
  t ∈ target_choices ->
  ∃ w, written_for h out packages t w
       ∧ write_target h out packages (Some t)
         = ([RollupWrite w.1 w.2 "[name].js"], Js.Normal tt).
Proof.
  unfold target_choices. rewrite !elem_of_cons.
  intros [->|[->|[->|?%elem_of_nil]]]; [| | |done].
  all: eexists (_, _); split; [eexists; split; reflexivity|reflexivity].
Qed.

Lemma write_targets h out packages ts :
  Forall (fun t => t ∈ target_choices) ts ->
  ∃ ws us,
    Js.Promise_all (write_target h out packages <$> (Some <$> ts))
    = (ws, Js.Normal us)
    ∧ Forall2 (written_for h out packages) ts (writes_of ws).
Proof.
  induction 1 as [|t ts Ht _ (ws & us & Hall & Hws)].
  - exists [], []. split; [reflexivity|constructor].
  - destruct (write_target_choice h out packages t Ht) as (w & Hw & Hone).
    exists (RollupWrite w.1 w.2 "[name].js" :: ws), (tt :: us).
    rewrite !fmap_cons. cbn [Js.Promise_all]. rewrite Hone, Hall.
    split.
    + reflexivity.
    + cbn [writes_of omap list_omap]. constructor; [|done].
      by destruct w.
Qed.

Lemma write_targets_Normal h out packages ts :
  Forall (fun t => t ∈ target_choices) ts ->
  ∃ us, Js.outcome
          (Js.Promise_all (write_target h out packages <$> (Some <$> ts)))
        = Js.Normal us.
Proof.
  intros Hall. destruct (write_targets h out packages ts Hall)
    as (ws & us & -> & _). by exists us.
Qed.

(** X19: with a dependencies object in package.json and targets among
    the accepted ones, the bundle check is the only source of a
    [TypeError]: [run] throws a [TypeError] if and only if the bundle is
    not one of 'modern', 'node' and 'stable'. *)
Theorem run_TypeError_only_from_check h a deps :
  dependencies (packageJson h) = Some deps ->
  (∀ ts, target a = Some ts -> Forall (fun t => t ∈ target_choices) ts) ->
  throws_TypeError (run h a) ↔ bundle a ∉ validBundles.
Proof.
  intros Hdeps Htargets. split.
  - intros [msg Hthrow] Hb. revert Hthrow.
    assert (Hclass : ∀ c m, c = Js.Error ->
      ¬ Js.class {| Js.class := c; Js.message := m |} = Js.TypeError)
      by (by intros c m ->).
    assert (Havoid : avoids (fun e => Js.class e = Js.TypeError) (run h a)).
    { unfold run, includes. rewrite bool_decide_eq_true_2 by done.
      cbn [negb]. unfold read_babel_runtime. rewrite Hdeps.
      cbv beta iota zeta. rewrite (bundle_table_get _ _ _ (bundle a)) by done.
      unfold path_resolve2, exec.
      repeat first
        [ apply avoids_ret
        | apply avoids_perform
        | apply avoids_throw; by apply Hclass
        | apply avoids_bind; [|intros ?]
        | match goal with
          | |- avoids _ (if ?b then _ else _) => destruct b
          end ].
      destruct (target a) as [ts|] eqn:Hts.
      - match goal with
        | |- context [Js.Promise_all (write_target h ?out ?p <$> _)] =>
            destruct (write_targets_Normal h out p ts (Htargets ts eq_refl))
              as [us Hus]
        end.
        intros e He. rewrite Hus in He. discriminate He.
      - rewrite (bundle_table_get "cjs" "modern" "esm") by done.
        match goal with
        | |- context [Js.Promise_all (write_target h ?out ?p <$> [Some ?t])] =>
            destruct (write_targets_Normal h out p [t]) as [us Hus]
        end.
        { constructor; [|constructor]. unfold target_choices.
          repeat case_decide; repeat first [by left|right]. }
        intros e He. discriminate (eq_trans (eq_sym Hus) He). }
    intros Hthrow. by apply (Havoid _ Hthrow).
  - intros Hb. rewrite run_unrecognized by done. by eexists.
Qed.

(** X12: a rollup build with explicit targets writes one bundle per
    target, in the order given: 'cjs' as commonjs into ./node, 'modern' as
    es into ./modern, 'esm' as es into ./, all under the output directory;
    when some top-level source file is not an index file, 'cjs' goes to
    ./ and 'esm' to ./esm instead. The run then completes normally. *)
Theorem run_rollup_writes_each_target h a ts :
  bundle a ∈ validBundles -> has_babel_runtime h -> rollup a = true ->
  target a = Some ts -> Forall (fun t => t ∈ target_choices) ts ->
  ∃ packages : bool,
    (packages = true ↔ only_index_files h)
    ∧ Js.outcome (run h a) = Js.Normal tt
    ∧ Forall2 (written_for h (outDir a) packages) ts
        (writes_of (Js.effects (run h a))).
Proof.
  intros Hb (deps & v & Hdeps & Hv & Ht)%has_babel_runtime_truthy Hr Hts Hall.
  eexists. split.
  { rewrite <- only_index_files_filter. apply bool_decide_eq_true. }
  unfold run, includes. rewrite bool_decide_eq_true_2 by done.
  rewrite Hr, Hts. cbn [negb]. unfold read_babel_runtime. rewrite Hdeps.
  cbv beta iota zeta. walk. rewrite Hv, Ht. cbn [negb]. walk.
  rewrite bundle_table_get by done. unfold path_resolve2. walk.
  match goal with
  | |- context [Js.Promise_all (write_target h ?out ?p <$> _)] =>
      destruct (write_targets h out p ts Hall) as (ws & us & -> & Hws)
  end.
  split; [reflexivity|].
  cbn [Js.bind Js.ret Js.effects fst writes_of omap list_omap].
  by rewrite app_nil_r.
Qed.

(** X13: without a target option a rollup build behaves as with the one
    target its bundle stands for: 'cjs' for node, 'modern' for modern,
    'esm' for stable. *)
Theorem run_rollup_default_target h a :
  bundle a ∈ validBundles -> rollup a = true -> target a = None ->
  run h a = run h (set_target (Some [default_target (bundle a)]) a).
Proof.
  intros Hb Hr Hts. unfold run, set_target.
  cbn [bundle largeFiles outDir verbose rollup target].
  rewrite Hr, Hts. rewrite (bundle_table_get "cjs" "modern" "esm") by done.
  reflexivity.
Qed.

Lemma string_app_assoc (s1 s2 s3 : string) :
  s1 +:+ (s2 +:+ s3) = (s1 +:+ s2) +:+ s3.
Proof.
  induction s1 as [|c s1 IH]; [done|].
  change (String c (s1 +:+ (s2 +:+ s3)) = String c ((s1 +:+ s2) +:+ s3)).
  by rewrite IH.
Qed.

Lemma join_snoc sep (l : list string) x :
  l ≠ [] -> Js.join sep (l ++ [x]) = Js.join sep l +:+ (sep +:+ x).
Proof.
  unfold Js.join. induction l as [|y [|z l] IH]; intros Hne; [done|done|].
  change (String.concat sep ((y :: z :: l) ++ [x]))
    with (y +:+ (sep +:+ String.concat sep ((z :: l) ++ [x]))).
  rewrite IH by done.
  change (String.concat sep (y :: z :: l))
    with (y +:+ (sep +:+ String.concat sep (z :: l))).
  by rewrite !string_app_assoc.
Qed.

(** X16: the largeFiles option only appends ' --compact false' to the
    babel command; the environment of the subprocess is the same with and
    without it. *)
Theorem run_largeFiles_appends_compact h a :
  bundle a ∈ validBundles -> has_babel_runtime h -> rollup a = false ->
  ∃ command env,
    Exec command env ∈ Js.effects (run h (set_largeFiles false a))
    ∧ Exec (command +:+ " --compact false") env
      ∈ Js.effects (run h (set_largeFiles true a)).
Proof.
  intros Hb (deps & v & Hdeps & Hv & Ht)%has_babel_runtime_truthy Hr.
  unfold run, includes, set_largeFiles.
  cbn [bundle largeFiles outDir verbose rollup target].
  rewrite bool_decide_eq_true_2 by done.
  rewrite Hr. cbn [negb]. unfold read_babel_runtime. rewrite Hdeps.
  cbv beta iota zeta. walk. rewrite Hv, Ht. cbn [negb]. walk.
  rewrite bundle_table_get by done. unfold path_resolve2. walk.
  rewrite app_nil_r, (app_comm_cons _ _ "pnpm babel"), join_snoc by done.
  destruct (bool_decide (verbose a = Some true)); walk.
  all: eexists _, _; split; repeat first [by left|right].
Qed.

(** X17: a verbose babel build that declares [@babel/runtime] at
    [version] performs exactly: read package.json, get the version
    variables, glob the top-level files, log the command with the
    variables the script itself sets (not the inherited environment),
    start the subprocess with [process.env] overlaid by those variables,
    and log the subprocess output only when it exited with code 0 and
    wrote nothing to stderr. *)
Theorem run_verbose_log h a deps version :
  bundle a ∈ validBundles ->
  dependencies (packageJson h) = Some deps ->
  deps !! "@babel/runtime" = Some version -> version ≠ EmptyString ->
  rollup a = false -> verbose a = Some true ->
  ∃ command,
    Js.effects (run h a)
    = [ReadFile (Node.resolve (path h) ["./package.json"]) "utf8";
       GetVersionEnvVariables;
       GlobSync ("*{" +:+ Js.join "," extensions +:+ "}")
         (Node.resolve (path h) ["./src"]) ignore;
       ConsoleLog ("running '" +:+ command +:+ "' with "
                     +:+ JSON_stringify h (script_env h a version));
       Exec command (process_env h ++ script_env h a version)]
      ++ (if decide (exec_exit_code h = 0 ∧ exec_stderr h = EmptyString)
          then [ConsoleLog (exec_stdout h)] else []).
Proof.
  intros Hb Hdeps Hv Hne Hr Hverb.
  assert (Ht : is_truthy_string (Some version) = true).
  { unfold is_truthy_string. by rewrite bool_decide_eq_false_2. }
  unfold run, includes, script_env. rewrite bool_decide_eq_true_2 by done.
  rewrite Hr. cbn [negb]. unfold read_babel_runtime. rewrite Hdeps.
  cbv beta iota zeta. walk. rewrite Hv, Ht. cbn [negb]. walk.
  rewrite bundle_table_get by done. unfold path_resolve2. walk.
  rewrite (bool_decide_eq_true_2 _ Hverb). walk.
  destruct (decide (exec_exit_code h = 0)) as [Hexit|Hexit].
  all: rewrite ?(proj2 (N.eqb_eq _ _) Hexit), ?(proj2 (N.eqb_neq _ _) Hexit).
  all: cbn [negb]; walk.
  all: destruct (decide (exec_stderr h = EmptyString)) as [Herr|Herr].
  all: rewrite ?(bool_decide_eq_true_2 _ Herr), ?(bool_decide_eq_false_2 _ Herr).
  all: cbn [negb fst snd]; walk.
  all: destruct (decide (exec_exit_code h = 0 ∧ exec_stderr h = EmptyString))
         as [[? ?]|Hnot]; try done; try (destruct Hnot; done).
  all: eexists; reflexivity.
Qed.

End BuildScriptMore.


Section StripExtension.
Import BuildScript.




End StripExtension.

(** ** The further properties on the sample inputs *)

Section MoreSampleRuns.
Import RunProperties ScriptProperties MoreSamples.

Ltac pick := repeat first [by left | right].

Lemma sample_has_babel_runtime : has_babel_runtime with_babel_runtime.
Proof.
  exists {[ "@babel/runtime" := "^7.26.0" ]}, "^7.26.0".
  split_and!; [reflexivity|reflexivity|discriminate].
Qed.

Lemma getWebpackSizes_first_occurrence_order_sample :
  let h := Sample.checker_host Sample.valid_config in
  BundleSizeChecker.loaded_config h
  = Some {| BundleSizeChecker.entrypoints :=
              BundleSizeChecker.ep_array
                ("@mui/material" :: ["@mui/joy"; "@mui/material"]) |}
  ∧ BundleSizeChecker.task_entry
      <$> BundleSizeChecker.submitted
            (Js.effects (BundleSizeChecker.getWebpackSizes h no_environment))
    = ["@mui/material"; "@mui/joy"].
Proof.
  intros h. split; [reflexivity|].
  exact (getWebpackSizes_first_occurrence_order h no_environment
           "@mui/material" ["@mui/joy"; "@mui/material"] eq_refl).
Defined.

Lemma getWebpackSizes_task_count_sample :
  let h := Sample.checker_host Sample.valid_config in
  let sent :=
    BundleSizeChecker.submitted
      (Js.effects (BundleSizeChecker.getWebpackSizes h no_environment)) in
  (BundleSizeChecker.loaded_config h
   = Some {| BundleSizeChecker.entrypoints :=
               BundleSizeChecker.ep_array Sample.entrypoints_with_duplicate |}
   ∧ Sample.entrypoints_with_duplicate ≠ [])
  ∧ (length sent ≤ length Sample.entrypoints_with_duplicate)%nat
  ∧ (length sent = length Sample.entrypoints_with_duplicate
     ↔ NoDup Sample.entrypoints_with_duplicate)
  ∧ (NoDup Sample.entrypoints_with_duplicate ->
     BundleSizeChecker.task_entry <$> sent = Sample.entrypoints_with_duplicate).
Proof.
  intros h sent. split; [split; [reflexivity|discriminate]|].
  apply (getWebpackSizes_task_count h no_environment
           Sample.entrypoints_with_duplicate); [reflexivity|discriminate].
Defined.

Lemma run_rejected_after_emptying_build_sample :
  ¬ valid_configuration (BundleSizeChecker.loaded_config no_config)
  ∧ BundleSizeChecker.run no_config Sample.default_argv
    = ([BundleSizeChecker.NewPiscina "file:///repo/worker.js" 8;
        BundleSizeChecker.FseEmptyDir "/repo/build";
        BundleSizeChecker.LoadConfig "/repo"],
       Js.Throw {| Js.class := Js.Error;
                   Js.message := BundleSizeChecker.no_valid_configuration |}).
Proof.
  assert (Hbad : ¬ valid_configuration (BundleSizeChecker.loaded_config no_config))
    by (intros (? & ? & ?); discriminate).
  split; [exact Hbad|].
  exact (run_rejected_after_emptying_build no_config Sample.default_argv Hbad).
Defined.

Lemma Object_fromEntries_keeps_distinct_sample :
  NoDup [("@mui/material", 100); ("@mui/joy", 101)].*1
  ∧ ("@mui/joy", 101) ∈ [("@mui/material", 100); ("@mui/joy", 101)]
  ∧ Js.Object_fromEntries [("@mui/material", 100); ("@mui/joy", 101)]
      !! "@mui/joy" = Some 101.
Proof.
  assert (Hnd : NoDup [("@mui/material", 100); ("@mui/joy", 101)].*1).
  { apply NoDup_cons. split; [|apply NoDup_singleton].
    intros Hin. apply list_elem_of_singleton in Hin. discriminate. }
  assert (Hin : ("@mui/joy", 101)
                ∈ [("@mui/material", 100); ("@mui/joy", 101)]) by pick.
  split_and!; [exact Hnd|exact Hin|].
  exact (Object_fromEntries_keeps_distinct _ _ _ Hnd Hin).
Defined.

Lemma run_stops_at_missing_babel_runtime_sample :
  let h := Sample.build_host (Some ∅) in
  let a := Sample.build_argv "node" in
  (BuildScript.bundle a ∈ BuildScript.validBundles
   ∧ BuildScript.dependencies (BuildScript.packageJson h) = Some ∅
   ∧ BuildScript.is_truthy_string ((∅ : gmap string string) !! "@babel/runtime")
     = false)
  ∧ BuildScript.run h a
    = ([BuildScript.ReadFile "resolve(./package.json)" "utf8"],
       Js.Throw {| Js.class := Js.Error;
                   Js.message := BuildScript.needs_babel_runtime |}).
Proof.
  intros h a.
  assert (Hb : BuildScript.bundle a ∈ BuildScript.validBundles) by pick.
  split; [split_and!; [exact Hb|reflexivity|reflexivity]|].
  exact (run_stops_at_missing_babel_runtime h a ∅ Hb eq_refl eq_refl).
Defined.

Lemma run_silent_unless_verbose_sample :
  let a := rollup_argv (Some ["cjs"; "esm"]) in
  BuildScript.verbose a ≠ Some true
  ∧ always (fun e => is_console e = false ∧ forwards_all_but_directive e)
      (BuildScript.run with_babel_runtime a).
Proof.
  intros a.
  assert (Hquiet : BuildScript.verbose a ≠ Some true) by discriminate.
  split; [exact Hquiet|].
  exact (run_silent_unless_verbose with_babel_runtime a Hquiet).
Defined.

Lemma run_babel_outcome_sample :
  let h := with_babel_runtime in
  let a := Sample.build_argv "stable" in
  (BuildScript.bundle a ∈ BuildScript.validBundles ∧ has_babel_runtime h
   ∧ BuildScript.rollup a = false)
  ∧ ∃ command env,
      BuildScript.Exec command env ∈ Js.effects (BuildScript.run h a)
      ∧ Js.outcome (BuildScript.run h a)
        = (if decide (BuildScript.exec_exit_code h = 0)
           then (if decide (BuildScript.exec_stderr h = EmptyString)
                 then Js.Normal tt
                 else Js.Throw
                        {| Js.class := Js.Error;
                           Js.message := "'" +:+ command +:+ "' failed with "
                                           +:+ BuildScript.newline
                                           +:+ BuildScript.exec_stderr h |})
           else Js.Throw
                  {| Js.class := Js.Error;
                     Js.message :=
                       BuildScript.command_failed command
                         (BuildScript.exec_stderr h) |}).
Proof.
  intros h a.
  assert (Hb : BuildScript.bundle a ∈ BuildScript.validBundles) by pick.
  split; [split_and!; [exact Hb|exact sample_has_babel_runtime|reflexivity]|].
  exact (run_babel_outcome h a Hb sample_has_babel_runtime eq_refl).
Defined.

Lemma run_sets_build_environment_sample :
  let h := with_babel_runtime in
  let a := Sample.build_argv "stable" in
  (("NODE_ENV" ∉ (BuildScript.versionEnvVariables h).*1)
   ∧ ("BABEL_ENV" ∉ (BuildScript.versionEnvVariables h).*1))
  ∧ always (fun e =>
              exec_env_has "NODE_ENV" (BuildScript.EnvString "production") e
              ∧ exec_env_has "BABEL_ENV"
                  (BuildScript.EnvString (BuildScript.bundle a)) e)
      (BuildScript.run h a).
Proof.
  intros h a.
  assert (Hnode : "NODE_ENV" ∉ (BuildScript.versionEnvVariables h).*1).
  { intros Hin. apply list_elem_of_singleton in Hin. discriminate. }
  assert (Hbabel : "BABEL_ENV" ∉ (BuildScript.versionEnvVariables h).*1).
  { intros Hin. apply list_elem_of_singleton in Hin. discriminate. }
  split; [split; [exact Hnode|exact Hbabel]|].
  exact (run_sets_build_environment h a Hnode Hbabel).
Defined.

Lemma run_rollup_writes_each_target_sample :
  let h := with_babel_runtime in
  let a := rollup_argv (Some ["cjs"; "esm"]) in
  (BuildScript.bundle a ∈ BuildScript.validBundles ∧ has_babel_runtime h
   ∧ BuildScript.rollup a = true
   ∧ BuildScript.target a = Some ["cjs"; "esm"]
   ∧ Forall (fun t => t ∈ target_choices) ["cjs"; "esm"])
  ∧ ∃ packages : bool,
      (packages = true ↔ only_index_files h)
      ∧ Js.outcome (BuildScript.run h a) = Js.Normal tt
      ∧ Forall2 (written_for h (BuildScript.outDir a) packages) ["cjs"; "esm"]
          (writes_of (Js.effects (BuildScript.run h a))).
Proof.
  intros h a.
  assert (Hb : BuildScript.bundle a ∈ BuildScript.validBundles) by pick.
  assert (Hall : Forall (fun t => t ∈ target_choices) ["cjs"; "esm"]).
  { repeat constructor; unfold target_choices; pick. }
  split;
    [split_and!;
       [exact Hb|exact sample_has_babel_runtime|reflexivity|reflexivity
       |exact Hall]|].
  exact (run_rollup_writes_each_target h a ["cjs"; "esm"] Hb
           sample_has_babel_runtime eq_refl eq_refl Hall).
Defined.

Example sample_rollup_writes :
  writes_of
    (Js.effects
       (BuildScript.run with_babel_runtime (rollup_argv (Some ["cjs"; "esm"]))))
  = [("resolve(./build,./node)", "commonjs"); ("resolve(./build,./)", "es")].
Proof. vm_compute. reflexivity. Qed.

Lemma run_rollup_default_target_sample :
  let h := with_babel_runtime in
  let a := rollup_argv None in
  (BuildScript.bundle a ∈ BuildScript.validBundles
   ∧ BuildScript.rollup a = true ∧ BuildScript.target a = None)
  ∧ BuildScript.run h a = BuildScript.run h (rollup_argv (Some ["esm"])).
Proof.
  intros h a.
  assert (Hb : BuildScript.bundle a ∈ BuildScript.validBundles) by pick.
  split; [split_and!; [exact Hb|reflexivity|reflexivity]|].
  exact (run_rollup_default_target h a Hb eq_refl eq_refl).
Defined.


Lemma run_largeFiles_appends_compact_sample :
  let h := with_babel_runtime in
  let a := Sample.build_argv "stable" in
  (BuildScript.bundle a ∈ BuildScript.validBundles ∧ has_babel_runtime h
   ∧ BuildScript.rollup a = false)
  ∧ ∃ command env,
      BuildScript.Exec command env
      ∈ Js.effects (BuildScript.run h (set_largeFiles false a))
      ∧ BuildScript.Exec (command +:+ " --compact false") env
        ∈ Js.effects (BuildScript.run h (set_largeFiles true a)).
Proof.
  intros h a.
  assert (Hb : BuildScript.bundle a ∈ BuildScript.validBundles) by pick.
  split; [split_and!; [exact Hb|exact sample_has_babel_runtime|reflexivity]|].
  exact (run_largeFiles_appends_compact h a Hb sample_has_babel_runtime eq_refl).
Defined.

Lemma run_verbose_log_sample :
  let h := with_babel_runtime in
  let a := verbose_argv in
  (BuildScript.bundle a ∈ BuildScript.validBundles
   ∧ BuildScript.dependencies (BuildScript.packageJson h)
     = Some {[ "@babel/runtime" := "^7.26.0" ]}
   ∧ ({[ "@babel/runtime" := "^7.26.0" ]} : gmap string string)
       !! "@babel/runtime" = Some "^7.26.0"
   ∧ "^7.26.0" ≠ EmptyString
   ∧ BuildScript.rollup a = false ∧ BuildScript.verbose a = Some true)
  ∧ ∃ command,
      Js.effects (BuildScript.run h a)
      = [BuildScript.ReadFile
           (Node.resolve (BuildScript.path h) ["./package.json"]) "utf8";
         BuildScript.GetVersionEnvVariables;
         BuildScript.GlobSync
           ("*{" +:+ Js.join "," BuildScript.extensions +:+ "}")
           (Node.resolve (BuildScript.path h) ["./src"]) BuildScript.ignore;
         BuildScript.ConsoleLog
           ("running '" +:+ command +:+ "' with "
              +:+ BuildScript.JSON_stringify h (script_env h a "^7.26.0"));
         BuildScript.Exec command
           (BuildScript.process_env h ++ script_env h a "^7.26.0")]
        ++ (if decide (BuildScript.exec_exit_code h = 0
                       ∧ BuildScript.exec_stderr h = EmptyString)
            then [BuildScript.ConsoleLog (BuildScript.exec_stdout h)] else []).
Proof.
  intros h a.
  assert (Hb : BuildScript.bundle a ∈ BuildScript.validBundles) by pick.
  assert (Hne : "^7.26.0" ≠ EmptyString) by discriminate.
  split;
    [split_and!;
       [exact Hb|reflexivity|reflexivity|exact Hne|reflexivity|reflexivity]|].
  exact (run_verbose_log h a {[ "@babel/runtime" := "^7.26.0" ]} "^7.26.0"
           Hb eq_refl eq_refl Hne eq_refl eq_refl).
Defined.

Lemma run_writes_only_when_configured_sample :
  let h := Sample.checker_host Sample.valid_config in
  let a := Sample.default_argv in
  let data := Js.Object_fromEntries [("@mui/material", 100); ("@mui/joy", 101)] in
  BundleSizeChecker.FseWriteJSON "/repo/size-snapshot.json" data 2
  ∈ Js.effects (BundleSizeChecker.run h a)
  ∧ valid_configuration (BundleSizeChecker.loaded_config h)
  ∧ "/repo/size-snapshot.json" = BundleSizeChecker.snapshotDestPath h a
  ∧ 2 = 2.
Proof.
  intros h a data.
  assert (Hin :
    BundleSizeChecker.FseWriteJSON "/repo/size-snapshot.json" data 2
    ∈ Js.effects (BundleSizeChecker.run h a)).
  { vm_compute. do 6 right. left. }
  split; [exact Hin|].
  exact (run_writes_only_when_configured h a _ _ _ Hin).
Defined.

Lemma run_TypeError_only_from_check_sample :
  let h := with_babel_runtime in
  let a := rollup_argv (Some ["cjs"; "esm"]) in
  (BuildScript.dependencies (BuildScript.packageJson h)
   = Some {[ "@babel/runtime" := "^7.26.0" ]}
   ∧ Forall (fun t => t ∈ target_choices) ["cjs"; "esm"])
  ∧ (throws_TypeError (BuildScript.run h a)
     ↔ BuildScript.bundle a ∉ BuildScript.validBundles).
Proof.
  intros h a.
  assert (Hts : Forall (fun t => t ∈ target_choices) ["cjs"; "esm"]).
  { unfold target_choices. repeat constructor. }
  split; [split; [reflexivity|exact Hts]|].
  refine (run_TypeError_only_from_check h a _ eq_refl _).
  intros ts Heq. injection Heq as <-. exact Hts.
Defined.

End MoreSampleRuns.
